(** * PulseKids PPG core: a shallow embedding of the signal-processing pipeline

    The JavaScript sources embedded here are
    - [src/App.js]: [RealPPGProcessor] (the camera pipeline) and
      [EnhancedPPGProcessor] (the simulated processor of the app screen);
    - [src/PPGAlgorithm.js]: [AdvancedPPGProcessor];
    - [src/unnamed/part_000] ([FingerDetection.js]): [FingerDetector].

    JavaScript numbers are modelled as rationals [Q] where the code only adds,
    multiplies, divides and compares them, and as [Z] where the code produces
    integers ([Math.round] results, counters, millisecond clocks).  Arrays are
    lists; [push] is [++ [x]] and [shift] is [tl] ([shift] on an empty array
    leaves it empty).  [Math.round x] is [floor (x + 1/2)]. *)

From Stdlib Require Import ZArith QArith Qround Qminmax Lqa List Lia Bool Sorted.
Import ListNotations.

Open Scope Z_scope.

(** JavaScript [Math.round] on a rational. *)
Definition js_round (x : Q) : Z := Qfloor (x + (1 # 2)).

(** [a < b], [a <= b], [a > b] on JS numbers modelled as [Q]. *)
Definition qlt (a b : Q) : bool := negb (Qle_bool b a).
Definition qle (a b : Q) : bool := Qle_bool a b.

(** ** Signal buffer: [RealPPGProcessor.addToBuffer] (src/App.js) *)
Module SignalBuffer.

Definition maxBufferSize : nat := 300.

(** [this.signalBuffer.push(s); if (length > maxBufferSize) shift();] *)
Definition add_to_buffer {A} (maxSize : nat) (buf : list A) (x : A) : list A :=
  let pushed := buf ++ [x] in
  if Nat.ltb maxSize (length pushed) then tl pushed else pushed.

(** The buffer after appending [xs] to the empty buffer of [reset()]. *)
Definition fill {A} (maxSize : nat) (xs : list A) : list A :=
  fold_left (add_to_buffer maxSize) xs [].

End SignalBuffer.

(** ** Finger detection hysteresis: [FingerDetector.detectFinger] *)
Module Finger.

Record fd_state := mk_fd {
  fingerDetected : bool;
  consecutiveDetections : Z
}.

Definition requiredDetections : Z := 5.

(** [constructor] and [reset()]. *)
Definition fd_init : fd_state := mk_fd false 0.
Definition reset (_ : fd_state) : fd_state := mk_fd false 0.

Record fd_result (C : Type) := mk_fd_result {
  res_fingerDetected : bool;
  res_confidence : Q;
  res_contour : option C
}.
Arguments mk_fd_result {C}.
Arguments res_fingerDetected {C}.
Arguments res_confidence {C}.
Arguments res_contour {C}.

(** The body of [detectFinger] after [findFingerContour]: the per-frame
    classification is the contour found in this frame ([Some] when a
    finger-shaped contour was found, [None] for [null]). *)
Definition detect_finger {C} (fingerContour : option C) (s : fd_state)
  : fd_state * fd_result C :=
  let s' :=
    match fingerContour with
    | Some _ =>
        let n := consecutiveDetections s + 1 in
        mk_fd (if n >=? requiredDetections then true else fingerDetected s) n
    | None => mk_fd false 0
    end in
  (s', mk_fd_result (fingerDetected s')
         (inject_Z (consecutiveDetections s') / inject_Z requiredDetections)%Q
         fingerContour).

(** Detector state after a sequence of per-frame classifications. *)
Definition run {C} (cs : list (option C)) (s : fd_state) : fd_state :=
  fold_left (fun st c => fst (detect_finger c st)) cs s.

(** Length of the trailing run of positive classifications. *)
Definition trailing_positives {C} (cs : list (option C)) : nat :=
  fold_left (fun n (c : option C) => match c with Some _ => S n | None => O end) cs O.

End Finger.

(** ** Signal conditioning and estimation (src/App.js, [RealPPGProcessor])

    The pipeline only runs on buffers of at least [minValidSamples = 90]
    samples; the list functions below follow the code on signals of at
    least 4 samples.  On a shorter signal the code's [bandpassFilter]
    still writes [filtered[0..3]] and returns 4 entries, some [undefined]
    (then [NaN]); the model keeps the input length there and is not used
    for such inputs. *)
Module Estimator.
Open Scope Q_scope.

Definition samplingRate : Z := 30.

Definition sumQ (l : list Q) : Q := fold_left Qplus l 0.
Definition meanQ (l : list Q) : Q := sumQ l / inject_Z (Z.of_nat (length l)).

(** [Math.min(...signal)] and [Math.max(...signal)] on a non-empty array. *)
Definition minQ (l : list Q) : Q :=
  match l with [] => 0 | x :: r => fold_left Qmin r x end.
Definition maxQ (l : list Q) : Q :=
  match l with [] => 0 | x :: r => fold_left Qmax r x end.

Definition at_ (l : list Q) (i : nat) : Q := nth i l 0.

(** [bandpassFilter(signal, 0.8, 3.0, sampleRate)]: the first [order = 4]
    samples are copied, the others are a fixed 5-tap kernel. *)
Definition bandpassFilter (signal : list Q) : list Q :=
  map (fun i =>
         if Nat.ltb i 4 then at_ signal i
         else (1#10) * at_ signal i + (2#10) * at_ signal (i - 1)
              + (4#10) * at_ signal (i - 2) + (2#10) * at_ signal (i - 3)
              + (1#10) * at_ signal (i - 4))
      (seq 0 (length signal)).

(** [savitzkyGolayFilter(signal, 5, 2)]: [halfWindow = 2] edge samples on
    each side copied, the middle ones replaced by the 5-sample mean. *)
Definition savitzkyGolayFilter (signal : list Q) : list Q :=
  let n := length signal in
  map (fun i =>
         if Nat.ltb i 2 || Nat.leb (n - 2) i then at_ signal i
         else (at_ signal (i - 2) + at_ signal (i - 1) + at_ signal i
               + at_ signal (i + 1) + at_ signal (i + 2)) / 5)
      (seq 0 n).

(** [normalizeSignal]: rescale to [0,1]; a constant window maps to 0.5. *)
Definition normalizeSignal (signal : list Q) : list Q :=
  let mn := minQ signal in
  let mx := maxQ signal in
  let range := mx - mn in
  if Qeq_bool range 0 then map (fun _ => 1#2) signal
  else map (fun v => (v - mn) / range) signal.

(** [applySignalProcessing]: DC removal, band pass, smoothing, normalisation. *)
Definition applySignalProcessing (signal : list Q) : list Q :=
  let mean := meanQ signal in
  let processed := map (fun v => v - mean) signal in
  normalizeSignal (savitzkyGolayFilter (bandpassFilter processed)).

Record peak := mk_peak { pk_index : nat; pk_timestamp : Q; pk_value : Q }.

Definition minPeakHeight : Q := 6#10.
Definition minPeakDistance : Q := 3#10.

(** One iteration [i] of the loop of [findPeaks]. *)
Definition find_peaks_step (signal timestamps : list Q) (peaks : list peak) (i : nat)
  : list peak :=
  let current := at_ signal i in
  let prev := at_ signal (i - 1) in
  let next := at_ signal (i + 1) in
  if qlt prev current && qlt next current && qlt minPeakHeight current then
    match rev peaks with
    | [] => peaks ++ [mk_peak i (at_ timestamps i) current]
    | lastp :: _ =>
        if qle minPeakDistance (at_ timestamps i - pk_timestamp lastp)
        then peaks ++ [mk_peak i (at_ timestamps i) current]
        else peaks
    end
  else peaks.

(** [findPeaks(signal, timestamps)]: [for (i = 1; i < signal.length - 1; i++)]. *)
Definition findPeaks (signal timestamps : list Q) : list peak :=
  fold_left (find_peaks_step signal timestamps) (seq 1 (length signal - 2)) [].

(** [peaks[i].timestamp - peaks[i-1].timestamp] for [i = 1 .. length-1]. *)
Fixpoint intervals (ts : list Q) : list Q :=
  match ts with
  | a :: ((b :: _) as rest) => (b - a) :: intervals rest
  | _ => []
  end.

(** [applyAgeConstraints]: the age band [(minHR, maxHR)]. *)
Definition age_band (childAge : Q) : Z * Z :=
  if qle childAge 1 then (100, 160)%Z
  else if qle childAge 3 then (80, 140)%Z
  else if qle childAge 5 then (70, 120)%Z
  else if qle childAge 7 then (65, 110)%Z
  else (60, 100)%Z.

Definition applyAgeConstraints (childAge heartRate : Q) : Q :=
  let (minHR, maxHR) := age_band childAge in
  Qmax (inject_Z minHR) (Qmin (inject_Z maxHR) heartRate).

(** [calculateHeartRate(signal, timestamps)]; [None] is [null]. *)
Definition calculateHeartRate (childAge : Q) (signal timestamps : list Q) : option Z :=
  let peaks := findPeaks signal timestamps in
  if Nat.ltb (length peaks) 2 then None
  else
    let ivs := intervals (map pk_timestamp peaks) in
    let avgInterval := sumQ ivs / inject_Z (Z.of_nat (length ivs)) in
    let heartRate := 60 / avgInterval in
    Some (js_round (applyAgeConstraints childAge heartRate)).

(** [extractPulseWaveFeatures].  [amplitude] is [Math.sqrt(variance)]; it is
    only compared with 0.3 and 0.1 by [calculateSystolicBP], so the record
    keeps the variance and those comparisons are made on its square
    ([sqrt v > 0.3] iff [v > 0.09] for [v >= 0]).  Skewness and kurtosis
    are not read by the blood-pressure formulas and are left out. *)
Record pulse_features := mk_features {
  pf_mean : Q; pf_variance : Q; pf_peakToPeak : Q
}.

Definition extractPulseWaveFeatures (signal : list Q) : pulse_features :=
  let mean := meanQ signal in
  let variance := sumQ (map (fun v => (v - mean) * (v - mean)) signal)
                  / inject_Z (Z.of_nat (length signal)) in
  mk_features mean variance (maxQ signal - minQ signal).

(** [getAgeAdjustment]. *)
Definition getAgeAdjustment (childAge : Q) : Q :=
  if qle childAge 1 then -20
  else if qle childAge 3 then -15
  else if qle childAge 5 then -10
  else if qle childAge 7 then -5
  else 0.

(** [calculateSystolicBP(pulseFeatures, heartRate)]. *)
Definition calculateSystolicBP (childAge : Q) (pf : pulse_features) (heartRate : Z) : Q :=
  let hr := inject_Z heartRate in
  let b0 := 100 in
  let b1 := if qlt 100 hr then b0 + (hr - 100) * (3#10)
            else if qlt hr 70 then b0 - (70 - hr) * (2#10)
            else b0 in
  let b2 := if qlt (9#100) (pf_variance pf) then b1 + 10
            else if qlt (pf_variance pf) (1#100) then b1 - 5
            else b1 in
  let b3 := b2 + getAgeAdjustment childAge in
  Qmax 70 (Qmin 140 b3).

(** [calculateDiastolicBP]: [ratio = 0.65 + (Math.random() - 0.5) * 0.1];
    [rnd] is the value drawn by [Math.random()]. *)
Definition calculateDiastolicBP (rnd : Q) (systolic : Q) : Q :=
  let ratio := (65#100) + (rnd - (1#2)) * (1#10) in
  inject_Z (js_round (systolic * ratio)).

(** [applyTemperatureCompensation]: [+2 mmHg] per degree above 37.0. *)
Definition applyTemperatureCompensation (temperature bpValue : Q) : Q :=
  bpValue + (temperature - 37) * 2.

(** [calculateBloodPressure(signal, heartRate)]: [null] when [!heartRate]. *)
Definition calculateBloodPressure (childAge temperature rnd : Q) (signal : list Q)
  (heartRate : option Z) : option (Z * Z) :=
  match heartRate with
  | None => None
  | Some hr =>
      if (hr =? 0)%Z then None
      else
        let pf := extractPulseWaveFeatures signal in
        let systolic := calculateSystolicBP childAge pf hr in
        let diastolic := calculateDiastolicBP rnd systolic in
        Some (js_round (applyTemperatureCompensation temperature systolic),
              js_round (applyTemperatureCompensation temperature diastolic))
  end.

(** [setTemperature] and [setChildAge]. *)
Definition setTemperature (temp : Q) : Q := Qmax 35 (Qmin 42 temp).
Definition setChildAge (age : Q) : Q := Qmax 0 (Qmin 7 age).

End Estimator.

(** ** The pipeline orchestrator: [RealPPGProcessor] (src/App.js) *)
Module Pipeline.
Import Estimator.

Record sample := mk_sample {
  s_timestamp : Q; s_value : Q; s_r : Q; s_g : Q; s_b : Q
}.

Record proc := mk_proc {
  signalBuffer : list sample;
  heartRateHistory : list Z;
  bpHistory : list (Z * Z);
  temperature : Q;
  childAge : Q;
  isProcessing : bool;
  lastProcessTime : Z;
  fingerDetector : Finger.fd_state
}.

Definition minValidSamples : nat := 90.
Definition maxHistorySize : nat := 10.
Definition maxBPHistorySize : nat := 5.
Definition processingInterval : Z := 33.

(** [constructor]. *)
Definition proc_init : proc :=
  mk_proc [] [] [] 37 5 false 0 Finger.fd_init.

(** [reset()]. *)
Definition reset (st : proc) : proc :=
  mk_proc [] [] [] (temperature st) (childAge st) false (lastProcessTime st)
          (Finger.reset (fingerDetector st)).

Definition set_buffer (st : proc) (b : list sample) : proc :=
  mk_proc b (heartRateHistory st) (bpHistory st) (temperature st) (childAge st)
          (isProcessing st) (lastProcessTime st) (fingerDetector st).
Definition set_histories (st : proc) (h : list Z) (bp : list (Z * Z)) : proc :=
  mk_proc (signalBuffer st) h bp (temperature st) (childAge st)
          (isProcessing st) (lastProcessTime st) (fingerDetector st).
Definition set_lastProcessTime (st : proc) (t : Z) : proc :=
  mk_proc (signalBuffer st) (heartRateHistory st) (bpHistory st) (temperature st)
          (childAge st) (isProcessing st) t (fingerDetector st).
Definition set_detector (st : proc) (d : Finger.fd_state) : proc :=
  mk_proc (signalBuffer st) (heartRateHistory st) (bpHistory st) (temperature st)
          (childAge st) (isProcessing st) (lastProcessTime st) d.

(** [addToBuffer(ppgSignal)]. *)
Definition addToBuffer (st : proc) (s : sample) : proc :=
  set_buffer st (SignalBuffer.add_to_buffer SignalBuffer.maxBufferSize (signalBuffer st) s).

(** [updateHeartRateHistory] and [updateBPHistory]: push, then one shift. *)
Definition updateHeartRateHistory (h : list Z) (hr : Z) : list Z :=
  SignalBuffer.add_to_buffer maxHistorySize h hr.
Definition updateBPHistory (h : list (Z * Z)) (bp : Z * Z) : list (Z * Z) :=
  SignalBuffer.add_to_buffer maxBPHistorySize h bp.

(** The quality labels of the results. *)
Inductive quality :=
| Collecting | InsufficientData | Poor | Fair | Good | Excellent | QError.

(** [assessSignalQuality(signal, confidence)]. *)
Definition assessSignalQuality (confidence : Q) : quality :=
  if qle (8#10) confidence then Excellent
  else if qle (6#10) confidence then Good
  else if qle (4#10) confidence then Fair
  else Poor.

(** The JS truthiness test [if (heartRate)] on a heart rate. *)
Definition truthy_hr (hr : option Z) : option Z :=
  match hr with Some h => if (h =? 0)%Z then None else Some h | None => None end.

Record vitals := mk_vitals {
  v_heartRate : option Z;
  v_bloodPressure : option (Z * Z);
  v_confidence : Q;
  v_quality : quality
}.

(** [getDisplaySignal()]: the last 60 samples as [(x, y, timestamp)]. *)
Definition getDisplaySignal (buf : list sample) : list (nat * Q * Q) :=
  let recent := skipn (length buf - 60) buf in
  combine (combine (seq 0 (length recent)) (map s_value recent)) (map s_timestamp recent).

(** The user-facing messages of the results. *)
Inductive message :=
| MsgPlaceFinger
| MsgCollecting (n : nat)
| MsgProcessingError.

(** A [Result] object; [None] in an [option] field stands for a field that
    is absent ([undefined]) or [null]. *)
Record result := mk_result {
  r_fingerDetected : bool;
  r_heartRate : option Z;
  r_bloodPressure : option (Z * Z);
  r_confidence : Q;
  r_quality : quality;
  r_message : option message;
  r_signalData : option (list (nat * Q * Q));
  r_temperature : option Q;
  r_childAge : option Q
}.

(** A frame: [None] is a [null] or [undefined] frame, [Some (width, height)]
    a frame object. *)
Definition frame := option (Z * Z).

(** The exceptions raised by [extractImageData]'s body. *)
Inductive js_exn := TypeError | RangeError.

(** The body of [extractImageData]'s [try]: destructuring [null] raises a
    [TypeError]; [new Uint8ClampedArray(n)] raises a [RangeError] when [n]
    is negative or above [2^53 - 1]; otherwise every pixel is RGBA
    [(128, 128, 128, 255)]. *)
Definition extractImageData_body (f : frame) : js_exn + list Z :=
  match f with
  | None => inl TypeError
  | Some (width, height) =>
      let n := (width * height * 4)%Z in
      if (n <? 0)%Z || (2 ^ 53 - 1 <? n)%Z then inl RangeError
      else inr (concat (repeat [128; 128; 128; 255]%Z (Z.to_nat (width * height))))
  end.

(** [extractImageData(frame)]: the [catch] turns an exception into [null]. *)
Definition extractImageData (f : frame) : option (list Z) :=
  match extractImageData_body f with
  | inl _ => None
  | inr img => Some img
  end.

Definition contour := list (Z * Z).

Section Processor.
(** [FingerDetector]'s per-frame classification [findFingerContour(
    findContours(createSkinMask(rgbToHsv(imageData))))]: HSV segmentation,
    flood fill and a shape test on floating-point [Math.sqrt] and
    [Math.PI]; [None] is [null]. *)
Variable findFingerContour : list Z -> option contour.
(** [extractPPGSignal(imageData, contour)] on a contour: the mean colour
    over the contour (on a [Math.sqrt] row stride), with a [Date.now()]
    timestamp and [Math.random()] noise; [None] is [null]. *)
Variable extractPPGSignal : list Z -> contour -> option sample.
(** [calculateConfidence(signal, heartRate)]: SNR through [Math.log10],
    stability through [Math.sqrt], amplitude, heart-rate validity. *)
Variable calculateConfidence : list Q -> option Z -> Q.

(** [calculateVitalSigns()]; [rnd] is the [Math.random()] draw of the
    diastolic ratio. *)
Definition calculateVitalSigns (st : proc) (rnd : Q) : proc * vitals :=
  if Nat.ltb (length (signalBuffer st)) minValidSamples then
    (st, mk_vitals None None 0 InsufficientData)
  else
    let values := map s_value (signalBuffer st) in
    let timestamps := map s_timestamp (signalBuffer st) in
    let filteredSignal := applySignalProcessing values in
    let heartRate := calculateHeartRate (childAge st) filteredSignal timestamps in
    let bloodPressure :=
      calculateBloodPressure (childAge st) (temperature st) rnd filteredSignal heartRate in
    let confidence := calculateConfidence filteredSignal heartRate in
    let quality := assessSignalQuality confidence in
    let h' := match truthy_hr heartRate with
              | Some hr => updateHeartRateHistory (heartRateHistory st) hr
              | None => heartRateHistory st
              end in
    let bp' := match bloodPressure with
               | Some bp => updateBPHistory (bpHistory st) bp
               | None => bpHistory st
               end in
    (set_histories st h' bp', mk_vitals heartRate bloodPressure confidence quality).

Definition not_detected_result : result :=
  mk_result false None None 0 Poor (Some MsgPlaceFinger) None None None.

Definition collecting_result (n : nat) : result :=
  mk_result true None None (inject_Z (Z.of_nat n) / inject_Z (Z.of_nat minValidSamples))
            Collecting (Some (MsgCollecting n)) None None None.

Definition full_result (st : proc) (vs : vitals) : result :=
  mk_result true (v_heartRate vs) (v_bloodPressure vs) (v_confidence vs) (v_quality vs)
            None (Some (getDisplaySignal (signalBuffer st)))
            (Some (temperature st)) (Some (childAge st)).

(** [processFrame(frame)] at clock [now = Date.now()]; the second
    component is the returned value, [None] for [null].  Every callee
    ([extractImageData], [detectFinger], [extractPPGSignal],
    [calculateVitalSigns], [getDisplaySignal]) catches its own exceptions
    and [addToBuffer] raises none, so the outer [catch] of [processFrame]
    has no modelled path leading to it. *)
Definition processFrame (st : proc) (f : frame) (now : Z) (rnd : Q)
  : proc * option result :=
  if (now - lastProcessTime st <? processingInterval)%Z then (st, None)
  else
    let st1 := set_lastProcessTime st now in
    match extractImageData f with
    | None => (st1, None)
    | Some imageData =>
        let (d', fingerDetection) :=
          Finger.detect_finger (findFingerContour imageData) (fingerDetector st1) in
        let st2 := set_detector st1 d' in
        if negb (Finger.res_fingerDetected fingerDetection) then
          (st2, Some not_detected_result)
        else
          let ppgSignal :=
            match Finger.res_contour fingerDetection with
            | Some c => extractPPGSignal imageData c
            | None => None
            end in
          match ppgSignal with
          | None => (st2, None)
          | Some s =>
              let st3 := addToBuffer st2 s in
              if Nat.leb minValidSamples (length (signalBuffer st3)) then
                let (st4, vs) := calculateVitalSigns st3 rnd in
                (st4, Some (full_result st4 vs))
              else
                (st3, Some (collecting_result (length (signalBuffer st3))))
          end
    end.
End Processor.

End Pipeline.

(** ** Smoothing of the heart-rate history in the sibling processors *)
Module Smoothing.

(** Insertion into a list sorted by [(a, b) => a - b]. *)
Fixpoint insert (x : Q) (l : list Q) : list Q :=
  match l with
  | [] => [x]
  | y :: r => if qle x y then x :: l else y :: insert x r
  end.

(** [[...history].sort((a, b) => a - b)]. *)
Fixpoint sort (l : list Q) : list Q :=
  match l with [] => [] | x :: r => insert x (sort r) end.

(** [AdvancedPPGProcessor.getSmoothedHeartRate()] (src/PPGAlgorithm.js):
    the median of the history.  [calculateHeartRate] pushes [finalHR],
    which is unrounded when only one of [hrFromPeaks] and [hrFromFFT] is
    truthy, so the entries are numbers, not integers; for an even count
    the two middle values are averaged and rounded ([Math.round]). *)
Definition advanced_getSmoothedHeartRate (h : list Q) : option Q :=
  match h with
  | [] => None
  | _ =>
      let sorted := sort h in
      let middle := (length sorted / 2)%nat in
      let below := (middle - 1)%nat in
      if Nat.even (length sorted) then
        Some (inject_Z (js_round ((nth below sorted 0 + nth middle sorted 0) / 2)%Q))
      else Some (nth middle sorted 0%Q)
  end.

(** [EnhancedPPGProcessor.getSmoothedHeartRate()] (src/App.js): the
    rounded mean of the last three values. *)
Definition enhanced_getSmoothedHeartRate (h : list Z) : option Z :=
  match h with
  | [] => None
  | _ =>
      let recent := skipn (length h - 3) h in
      Some (js_round (inject_Z (fold_left Z.add recent 0) / inject_Z (Z.of_nat (length recent))))
  end.

End Smoothing.

(** ** Parallel channel buffers of the simulated processors:
    [AdvancedPPGProcessor] (src/PPGAlgorithm.js) and [EnhancedPPGProcessor]
    (src/App.js).  No other method assigns or mutates these four arrays. *)
Module Parallel.

Record rgb := mk_rgb { red : Q; green : Q; blue : Q }.

Record buffers := mk_buffers {
  redBuffer : list Q;
  greenBuffer : list Q;
  blueBuffer : list Q;
  timestamps : list Q
}.

Definition bufferSize : nat := 300.

(** [constructor] and [reset()]. *)
Definition buffers_init : buffers := mk_buffers [] [] [] [].
Definition reset (_ : buffers) : buffers := mk_buffers [] [] [] [].

(** One iteration of [while (redBuffer.length > bufferSize) { shift x4 }];
    [fuel] bounds the iterations (each one shortens [redBuffer]). *)
Fixpoint trim (fuel : nat) (b : buffers) : buffers :=
  match fuel with
  | O => b
  | S fuel' =>
      if Nat.ltb bufferSize (length (redBuffer b)) then
        trim fuel' (mk_buffers (tl (redBuffer b)) (tl (greenBuffer b))
                               (tl (blueBuffer b)) (tl (timestamps b)))
      else b
  end.

(** [addToBuffer(rgbValues, timestamp)]: four pushes, then the loop. *)
Definition addToBuffer (b : buffers) (v : rgb) (ts : Q) : buffers :=
  let b1 := mk_buffers (redBuffer b ++ [red v]) (greenBuffer b ++ [green v])
                       (blueBuffer b ++ [blue v]) (timestamps b ++ [ts]) in
  trim (length (redBuffer b1)) b1.

(** The calls that touch the buffers. *)
Inductive op :=
| ProcessFrame (v : rgb) (ts : Q)
| AddToBuffer (v : rgb) (ts : Q)
| Reset.

(** [AdvancedPPGProcessor]: [processFrame] extracts [rgbValues] and calls
    [addToBuffer]; its estimation steps only read the buffers. *)
Definition advanced_step (b : buffers) (o : op) : buffers :=
  match o with
  | ProcessFrame v ts => addToBuffer b v ts
  | AddToBuffer v ts => addToBuffer b v ts
  | Reset => reset b
  end.

(** [EnhancedPPGProcessor]: [processFrame] returns [null] at once while
    [isProcessing], else generates a sample and calls [addToBuffer]. *)
Definition enhanced_step (isProcessing : bool) (b : buffers) (o : op) : buffers :=
  match o with
  | ProcessFrame v ts => if isProcessing then b else addToBuffer b v ts
  | AddToBuffer v ts => addToBuffer b v ts
  | Reset => reset b
  end.

(** The four buffers as projections of one sequence of samples. *)
Definition of_samples (l : list (rgb * Q)) : buffers :=
  mk_buffers (map (fun p => red (fst p)) l) (map (fun p => green (fst p)) l)
             (map (fun p => blue (fst p)) l) (map snd l).

End Parallel.

(** ** Concrete inputs used by the examples below *)
Module Fixtures.
Import Estimator Pipeline.

(** Synthetic conditioned signal: a pulse of height 1 every 18 samples
    (0.6 s at 30 Hz) on a zero baseline, over 90 samples. *)
Definition pulse_signal : list Q :=
  map (fun i => if Nat.eqb (Nat.modulo i 18) 9 then 1 else 0) (seq 0 90).
Definition pulse_timestamps : list Q :=
  map (fun i => inject_Z (Z.of_nat i) / inject_Z samplingRate) (seq 0 90).

(** The same pulse train as camera samples [{timestamp, value, r, g, b}]. *)
Definition pulse_samples : list sample :=
  map (fun i => mk_sample (inject_Z (Z.of_nat i) / inject_Z samplingRate)
                          (nth i pulse_signal 0) 0 0 0) (seq 0 90).

(** Stage functions for concrete runs of [processFrame]: a classifier that
    reports a one-point contour or none, a region reducer returning a fixed
    sample, and a constant confidence score. *)
Definition some_contour : list Z -> option contour := fun _ => Some [(0, 0)%Z].
Definition no_contour : list Z -> option contour := fun _ => None.
Definition const_sample (s : sample) : list Z -> contour -> option sample :=
  fun _ _ => Some s.
Definition no_sample : list Z -> contour -> option sample := fun _ _ => None.
Definition zero_confidence : list Q -> option Z -> Q := fun _ _ => 0%Q.

Definition sample0 : sample := mk_sample 0 (1 # 2) 0 0 0.


(** A processor whose detector has seen 4 consecutive positives. *)
Definition proc_four_positives : proc :=
  mk_proc [] [] [] 37 5 false 0 (Finger.mk_fd false 4).

(** Camera samples [{timestamp, value, r, g, b}] at 30 Hz for the sample
    numbers [start .. start + n - 1]: a pulse of height 1 at the middle of
    every [period] samples on a zero baseline. *)
Definition pulse_run (period start n : nat) : list sample :=
  map (fun i => mk_sample (inject_Z (Z.of_nat i) / inject_Z samplingRate)
                          (if Nat.eqb (Nat.modulo i period) (period / 2) then 1 else 0)
                          0 0 0)
      (seq start n).

(** A processor at capacity: 300 buffered samples of a pulse every 18
    samples (0.6 s), a full heart-rate history (10 entries) and a full
    blood-pressure history (5 entries), a finger already detected. *)
Definition proc_full : proc :=
  mk_proc (pulse_run 18 92 300) [80; 90; 90; 90; 90; 90; 90; 90; 90; 90]%Z
          [(95, 62); (100, 65); (100, 65); (100, 65); (100, 65)]%Z
          37 5 false 0 (Finger.mk_fd true 5).

(** The next sample of the same pulse train. *)
Definition sample_next : sample := nth 0 (pulse_run 18 392 1) sample0.

End Fixtures.

(** ** Skin segmentation of [FingerDetector] (src/unnamed/part_000)

    Images are flat RGBA byte arrays ([Uint8ClampedArray]) as lists of [Z].
    The shape test [isFingerShape] reads [calculateContourPerimeter]
    ([Math.sqrt]) and [calculateCircularity] ([Math.PI]); it stays a
    parameter of the functions that call it. *)
Module Detector.

(** A store into a [Uint8ClampedArray] of an integer value ([ToUint8Clamp]
    on an integer: clamp to [0, 255]). *)
Definition u8clamp (n : Z) : Z := Z.max 0 (Z.min 255 n).

(** The integer part of [x] toward zero, and the JavaScript remainder
    [x % m] (the sign of the dividend) on finite numbers. *)
Definition qtrunc (x : Q) : Z :=
  if Qle_bool 0 x then Qfloor x else (- Qfloor (- x))%Z.
Definition js_rem (x m : Q) : Q := (x - m * inject_Z (qtrunc (x / m)))%Q.

(** The loop body of [rgbToHsv] on one pixel [(R, G, B, A)]: the four
    bytes stored at [hsvData[i .. i + 3]]. *)
Definition hsv_pixel (R G B A : Z) : Z * Z * Z * Z :=
  let r := (inject_Z R / 255)%Q in
  let g := (inject_Z G / 255)%Q in
  let b := (inject_Z B / 255)%Q in
  let max := Qmax (Qmax r g) b in
  let min := Qmin (Qmin r g) b in
  let diff := (max - min)%Q in
  let h := if Qeq_bool diff 0 then 0%Q
           else if Qeq_bool max r then js_rem ((g - b) / diff) 6
           else if Qeq_bool max g then ((b - r) / diff + 2)%Q
           else ((r - g) / diff + 4)%Q in
  let h1 := js_round (h * 60) in
  let h2 := if h1 <? 0 then h1 + 360 else h1 in
  let s := if Qeq_bool max 0 then 0%Q else (diff / max)%Q in
  let v := max in
  (u8clamp h2, u8clamp (js_round (s * 255)), u8clamp (js_round (v * 255)), u8clamp A).

(** [rgbToHsv(imageData)]: [hsvData] has the length of [imageData].  On a
    trailing partial pixel the missing channels read [undefined]: with one
    or two channels present [Math.max] is [NaN], every stored value is
    [NaN] and stores as 0; with three present [h], [s], [v] are computed as
    usual.  Stores past the end of [hsvData] are dropped. *)
Fixpoint rgbToHsv (img : list Z) : list Z :=
  match img with
  | R :: G :: B :: A :: rest =>
      let '(h, s, v, a) := hsv_pixel R G B A in h :: s :: v :: a :: rgbToHsv rest
  | [R; G; B] => let '(h, s, v, _) := hsv_pixel R G B 0 in [h; s; v]
  | [_; _] => [0; 0]
  | [_] => [0]
  | [] => []
  end.

(** [this.skinColorRanges]: [(lower, upper)] bounds on [(h, s, v)]. *)
Definition skinColorRanges : list ((Z * Z * Z) * (Z * Z * Z)) :=
  [((0, 20, 70), (20, 255, 255));
   ((0, 30, 60), (25, 255, 255));
   ((0, 40, 50), (30, 255, 255))].

Definition in_range (h s v : Z) (rg : (Z * Z * Z) * (Z * Z * Z)) : bool :=
  let '((l0, l1, l2), (u0, u1, u2)) := rg in
  (l0 <=? h) && (h <=? u0) && (l1 <=? s) && (s <=? u1) && (l2 <=? v) && (v <=? u2).

(** The inner loop of [createSkinMask]: does the pixel fall in a range? *)
Definition isSkin (h s v : Z) : bool := existsb (in_range h s v) skinColorRanges.

(** [createSkinMask(hsvData)]: one byte per whole pixel, 255 for skin;
    [mask] has length [floor(hsvData.length / 4)], so a trailing partial
    pixel stores nothing. *)
Fixpoint createSkinMask (hsv : list Z) : list Z :=
  match hsv with
  | h :: s :: v :: _ :: rest => (if isSkin h s v then 255 else 0) :: createSkinMask rest
  | _ => []
  end.

(** [findContours] reads the mask as a square of side
    [width = Math.sqrt(M)], [M = binaryImage.length].  For integer [x, y >= 0],
    [x < width] iff [x * x < M]. *)
Definition in_bounds (M x y : Z) : bool :=
  (0 <=? x) && (x * x <? M) && (0 <=? y) && (y * y <? M).

(** [index = y * width + x].  When [M] is not a perfect square [width] is
    irrational and [index] is not an array index unless [y = 0];
    [binaryImage[index]] is then [undefined] ([None]). *)
Definition pixel_index (M x y : Z) : option Z :=
  if y =? 0 then Some x
  else if Z.sqrt M * Z.sqrt M =? M then Some (y * Z.sqrt M + x)
  else None.

(** [binaryImage[i] === 255] for an index [i >= 0]. *)
Definition is255 (mask : list Z) (i : Z) : bool :=
  match nth_error mask (Z.to_nat i) with Some v => v =? 255 | None => false end.

(** [visited.has(i)] on the [Set] of visited indices. *)
Definition mem (i : Z) (visited : list Z) : bool := existsb (Z.eqb i) visited.

(** The [while (stack.length > 0)] loop of [floodFill].  The stack is a
    list whose head is its top ([pop] takes the head, [push] conses);
    [visited] is the shared [Set] and [contour] the points found so far.
    [fuel] bounds the iterations; [fill_fuel] below is always enough
    (lemma [fill_loop_fuel] of [DetectorFacts]). *)
Fixpoint fill_loop (mask : list Z) (M : Z) (fuel : nat) (stack : list (Z * Z))
  (visited : list Z) (contour : list (Z * Z)) : list Z * list (Z * Z) :=
  match fuel with
  | O => (visited, contour)
  | S fuel' =>
      match stack with
      | [] => (visited, contour)
      | (x, y) :: stack' =>
          if in_bounds M x y then
            match pixel_index M x y with
            | Some i =>
                if is255 mask i && negb (mem i visited) then
                  fill_loop mask M fuel'
                    ((x, y - 1) :: (x, y + 1) :: (x - 1, y) :: (x + 1, y) :: stack')
                    (i :: visited) (contour ++ [(x, y)])
                else fill_loop mask M fuel' stack' visited contour
            | None => fill_loop mask M fuel' stack' visited contour
            end
          else fill_loop mask M fuel' stack' visited contour
      end
  end.

(** Each iteration either pops without pushing or marks a new pixel of
    value 255 and pushes four entries, so [4 * M + 1] iterations empty the
    stack. *)
Definition fill_fuel (mask : list Z) : nat := S (4 * length mask).

(** [floodFill(binaryImage, startX, startY, width, height, visited)]: the
    updated [visited] set and the [contour]. *)
Definition floodFill (mask : list Z) (x y : Z) (visited : list Z) : list Z * list (Z * Z) :=
  fill_loop mask (Z.of_nat (length mask)) (fill_fuel mask) [(x, y)] visited [].

(** The coordinates [0, 1, ...] below [width]: [k * k < M]. *)
Definition coords (M : Z) : list Z :=
  filter (fun k => k * k <? M) (map Z.of_nat (seq 0 (Z.to_nat M))).

(** One iteration [(x, y)] of the double loop of [findContours] on the
    state [(visited, contours)]. *)
Definition contours_step (mask : list Z) (y : Z) (st : list Z * list (list (Z * Z))) (x : Z)
  : list Z * list (list (Z * Z)) :=
  let '(visited, contours) := st in
  let M := Z.of_nat (length mask) in
  match pixel_index M x y with
  | Some i =>
      if is255 mask i && negb (mem i visited) then
        let '(visited', contour) := floodFill mask x y visited in
        (visited', if Nat.ltb 100 (length contour) then contours ++ [contour] else contours)
      else (visited, contours)
  | None => (visited, contours)
  end.

(** [findContours(binaryImage)]. *)
Definition findContours (mask : list Z) : list (list (Z * Z)) :=
  let M := Z.of_nat (length mask) in
  snd (fold_left (fun st y => fold_left (contours_step mask y) (coords M) st)
                 (coords M) ([], [])).

Section Shape.
(** [isFingerShape(contour)]. *)
Variable isFingerShape : list (Z * Z) -> bool.

(** [findFingerContour(contours)]: the first finger-shaped contour. *)
Definition findFingerContour (contours : list (list (Z * Z))) : option (list (Z * Z)) :=
  find isFingerShape contours.

(** The per-frame classification of [detectFinger(imageData)]: the
    contour handed to the hysteresis of [Finger.detect_finger]. *)
Definition classify (img : list Z) : option (list (Z * Z)) :=
  findFingerContour (findContours (createSkinMask (rgbToHsv img))).

End Shape.

End Detector.

(** ** [AdvancedPPGProcessor] and [PPGSignalClassifier] (src/PPGAlgorithm.js) *)
Module Advanced.
Import Estimator.
Local Open Scope Q_scope.

Definition sampleRate : Z := 30.

(** [bandpassFilter(signal)]: the mean of [signal[j]] over
    [j = max(0, i - 5) .. min(length - 1, i + 5)]. *)
Definition bandpassFilter (signal : list Q) : list Q :=
  let n := length signal in
  map (fun i =>
         let lo := (i - 5)%nat in
         let hi := Nat.min (n - 1) (i + 5) in
         let js := seq lo (S hi - lo) in
         sumQ (map (at_ signal) js) / inject_Z (Z.of_nat (length js)))
      (seq 0 n).

(** [detrend(signal)]. *)
Definition detrend (signal : list Q) : list Q :=
  match signal with
  | [] => signal
  | _ => let mean := meanQ signal in map (fun v => v - mean) signal
  end.

(** [Math.floor(this.sampleRate * 0.4)]. *)
Definition minPeakDistance : Z := 12.

(** One iteration [i] of the loop of [findPeaks]; [peaks] holds indices. *)
Definition find_peaks_step (signal : list Q) (threshold : Q) (peaks : list nat) (i : nat)
  : list nat :=
  if qlt (at_ signal (i - 1)) (at_ signal i) && qlt (at_ signal (i + 1)) (at_ signal i)
     && qlt threshold (at_ signal i) then
    match rev peaks with
    | [] => peaks ++ [i]
    | last :: _ =>
        if (minPeakDistance <=? Z.of_nat i - Z.of_nat last)%Z then peaks ++ [i] else peaks
    end
  else peaks.

(** [findPeaks(signal)] with [threshold = calculateAdaptiveThreshold(signal)]
    ([mean + 0.6 * Math.sqrt(variance)]), a parameter here. *)
Definition findPeaks (threshold : Q) (signal : list Q) : list nat :=
  fold_left (find_peaks_step signal threshold) (seq 1 (length signal - 2)) [].

(** [60 / intervalSeconds] for each pair of consecutive peaks. *)
Fixpoint peak_rates (ps : list nat) : list Q :=
  match ps with
  | a :: ((b :: _) as rest) =>
      (60 / (inject_Z (Z.of_nat b - Z.of_nat a) / inject_Z sampleRate)) :: peak_rates rest
  | _ => []
  end.

(** [[...data].sort((a, b) => a - b)]: insertion sort. *)
Fixpoint insertQ (x : Q) (l : list Q) : list Q :=
  match l with
  | [] => [x]
  | y :: r => if Qle_bool x y then x :: l else y :: insertQ x r
  end.
Fixpoint sortQ (l : list Q) : list Q :=
  match l with [] => [] | x :: r => insertQ x (sortQ r) end.

(** [removeOutliers(data)]: the interquartile-range filter;
    [Math.floor(n * 0.25)] is [n / 4] and [Math.floor(n * 0.75)] is
    [3 n / 4]. *)
Definition removeOutliers (data : list Q) : list Q :=
  if Nat.ltb (length data) 3 then data
  else
    let sorted := sortQ data in
    let q1 := nth (length sorted / 4) sorted 0 in
    let q3 := nth (length sorted * 3 / 4) sorted 0 in
    let iqr := q3 - q1 in
    let lowerBound := q1 - (3 # 2) * iqr in
    let upperBound := q3 + (3 # 2) * iqr in
    filter (fun v => qle lowerBound v && qle v upperBound) data.

(** [calculateHRFromPeaks(signal)] with the peak threshold as above;
    [None] is [null]. *)
Definition calculateHRFromPeaks (threshold : Q) (signal : list Q) : option Q :=
  let peaks := findPeaks threshold signal in
  if Nat.ltb (length peaks) 2 then None
  else
    let filteredIntervals := removeOutliers (peak_rates peaks) in
    match filteredIntervals with
    | [] => None
    | _ => Some (sumQ filteredIntervals / inject_Z (Z.of_nat (length filteredIntervals)))
    end.

(** [normalizeSignal(signal)]: rescale to [-1, 1]. *)
Definition normalizeSignal (signal : list Q) : list Q :=
  match signal with
  | [] => []
  | _ =>
      let mn := minQ signal in
      let mx := maxQ signal in
      let range := mx - mn in
      if Qeq_bool range 0 then map (fun _ => 0) signal
      else map (fun v => ((v - mn) / range - (1 # 2)) * 2) signal
  end.

(** [getDisplaySignal()] on [greenBuffer]: [(x, y)] points of the last 60
    samples, filtered and normalised. *)
Definition getDisplaySignal (greenBuffer : list Q) : list (nat * Q) :=
  let signal := skipn (length greenBuffer - 60) greenBuffer in
  match signal with
  | [] => []
  | _ =>
      let normalized := normalizeSignal (bandpassFilter signal) in
      combine (seq 0 (length normalized)) normalized
  end.

(** [PPGSignalClassifier.classifySignalQuality(confidence, snr, hrv)]. *)
Inductive grade := Poor | Fair | Good | Excellent.

Definition classifySignalQuality (confidence snr hrv : Q) : grade :=
  let score := confidence * (1 # 2) + Qmin (snr / 20) 1 * (3 # 10)
               + Qmax 0 (1 - hrv / 10) * (2 # 10) in
  if qle (9 # 10) score then Excellent
  else if qle (7 # 10) score then Good
  else if qle (5 # 10) score then Fair
  else Poor.

(** [detectSaturation(signalData)]. *)
Definition detectSaturation (signalData : list Q) : Q :=
  match signalData with
  | [] => 0
  | _ =>
      let mx := maxQ signalData in
      let mn := minQ signalData in
      let maxCount := length (filter (fun v => qlt (mx * (95 # 100)) v) signalData) in
      let minCount := length (filter (fun v => qlt v (mn * (105 # 100))) signalData) in
      inject_Z (Z.of_nat (maxCount + minCount)) / inject_Z (Z.of_nat (length signalData))
  end.

(** [assessContactQuality(signalData)]. *)
Definition assessContactQuality (signalData : list Q) : Q :=
  match signalData with
  | [] => 0
  | _ => Qmin 1 ((maxQ signalData - minQ signalData) / 50)
  end.

(** The variance computed by [calculateAcceleration] over the last 10
    samples.  The acceleration is [Math.sqrt(variance) / 100], only compared
    with 2.0 by [detectArtifacts]: [sqrt v / 100 > 2] iff [v > 40000]. *)
Definition accelerationVariance (signalData : list Q) : Q :=
  let recent := skipn (length signalData - 10) signalData in
  let mean := meanQ recent in
  sumQ (map (fun v => (v - mean) * (v - mean)) recent) / inject_Z (Z.of_nat (length recent)).

Inductive artifact := Motion | Saturation | PoorContact.

(** [detectArtifacts(signalData)]; [calculateAcceleration] returns 0 on
    fewer than 10 samples. *)
Definition detectArtifacts (signalData : list Q) : list artifact :=
  let motion := Nat.leb 10 (length signalData)
                && qlt 40000 (accelerationVariance signalData) in
  (if motion then [Motion] else [])
  ++ (if qlt (8 # 10) (detectSaturation signalData) then [Saturation] else [])
  ++ (if qlt (assessContactQuality signalData) (3 # 10) then [PoorContact] else []).

End Advanced.

(** ** [EnhancedPPGProcessor] (src/App.js), the processor of the app screen *)
Module Enhanced.
Import Estimator.
Local Open Scope Q_scope.

(** [applyFiltering(signal)]: the moving average of
    [AdvancedPPGProcessor.bandpassFilter] (the same loop), then the mean
    is subtracted. *)
Definition applyFiltering (signal : list Q) : list Q :=
  let filtered := Advanced.bandpassFilter signal in
  let mean := meanQ filtered in
  map (fun v => v - mean) filtered.

(** [calculateDynamicThreshold(signal)]: 0.6 times
    [sorted[Math.floor(length * 0.75)]]. *)
Definition calculateDynamicThreshold (signal : list Q) : Q :=
  nth (length signal * 3 / 4) (Advanced.sortQ signal) 0 * (6 # 10).

(** [findPeaks(signal)]: the loop of [AdvancedPPGProcessor.findPeaks]
    (same minimum distance [Math.floor(30 * 0.4) = 12]) with the dynamic
    threshold. *)
Definition findPeaks (signal : list Q) : list nat :=
  Advanced.findPeaks (calculateDynamicThreshold signal) signal.

(** [peaks[i] - peaks[i - 1]]. *)
Fixpoint peak_gaps (ps : list nat) : list Q :=
  match ps with
  | a :: ((b :: _) as rest) => inject_Z (Z.of_nat b - Z.of_nat a) :: peak_gaps rest
  | _ => []
  end.

(** [estimateHeartRate(signal)]; [None] is [null]. *)
Definition estimateHeartRate (signal : list Q) : option Z :=
  if Nat.ltb (length signal) 60 then None
  else
    let peaks := findPeaks signal in
    if Nat.ltb (length peaks) 2 then None
    else
      let intervals := peak_gaps peaks in
      let avgInterval := sumQ intervals / inject_Z (Z.of_nat (length intervals)) in
      let heartRate := (60 * 30) / avgInterval in
      Some (js_round (Qmax 60 (Qmin 150 heartRate))).

(** [assessSignalQuality(signal, confidence)]. *)
Definition assessSignalQuality (confidence : Q) : Advanced.grade :=
  if qlt (8 # 10) confidence then Advanced.Excellent
  else if qlt (6 # 10) confidence then Advanced.Good
  else if qlt (4 # 10) confidence then Advanced.Fair
  else Advanced.Poor.

(** [getDisplaySignal(signal)]: [(x, y)] points of the last
    [min(60, length)] samples scaled to [-1, 1]; a zero range is replaced
    by 1 ([max - min || 1]). *)
Definition getDisplaySignal (signal : list Q) : list (nat * Q) :=
  let displayLength := Nat.min 60 (length signal) in
  let data := skipn (length signal - displayLength) signal in
  match data with
  | [] => []
  | _ =>
      let mx := maxQ data in
      let mn := minQ data in
      let range := if Qeq_bool (mx - mn) 0 then 1 else mx - mn in
      combine (seq 0 (length data)) (map (fun v => ((v - mn) / range - (1 # 2)) * 2) data)
  end.

(** The processor state besides the channel buffers. *)
Record state := mk_state {
  buffers : Parallel.buffers;
  heartRateHistory : list Z;
  confidenceHistory : list Q
}.

(** The fields of [calculateMetrics()]'s result that are modelled;
    [metrics] ([getAdvancedMetrics], through [Math.sqrt]) is left out. *)
Record metrics := mk_metrics {
  m_heartRate : option Z;
  m_confidence : Q;
  m_quality : Advanced.grade;
  m_signalData : list (nat * Q);
  m_isValid : bool
}.

Section Metrics.
(** [calculateConfidence(signal, heartRate)]: [Math.log10] SNR and
    [Math.sqrt] stability over the heart-rate history. *)
Variable calculateConfidence : list Q -> option Z -> list Z -> Q.

(** [calculateMetrics()]: estimate, record the truthy estimates (both
    histories shift together above 20 entries), return the smoothed rate. *)
Definition calculateMetrics (st : state) : state * metrics :=
  let signal := Parallel.greenBuffer (buffers st) in
  let filtered := applyFiltering signal in
  let heartRate := estimateHeartRate filtered in
  let confidence := calculateConfidence filtered heartRate (heartRateHistory st) in
  let quality := assessSignalQuality confidence in
  let st' :=
    match Pipeline.truthy_hr heartRate with
    | Some hr =>
        let h := heartRateHistory st ++ [hr] in
        let c := confidenceHistory st ++ [confidence] in
        if Nat.ltb 20 (length h) then mk_state (buffers st) (tl h) (tl c)
        else mk_state (buffers st) h c
    | None => st
    end in
  let hrnum := match heartRate with Some h => h | None => 0%Z end in
  (st', mk_metrics (Smoothing.enhanced_getSmoothedHeartRate (heartRateHistory st'))
                   confidence quality (getDisplaySignal filtered)
                   ((60 <=? hrnum)%Z && (hrnum <=? 150)%Z)).

End Metrics.

End Enhanced.

(** ** Invariants and predicates used by the properties below *)

Module DetectorSpec.
Import Pipeline Detector.

Definition grey (p : Z * Z) : list Z := let '(v, a) := p in [v; v; v; a].

(** The number of mask pixels of value 255 not yet in [visited]. *)
Definition count_unvisited (mask : list Z) (visited : list Z) : nat :=
  length (filter (fun j => is255 mask (Z.of_nat j) && negb (mem (Z.of_nat j) visited))
                 (seq 0 (length mask))).

(** A contour point: inside the square, on a pixel of value 255. *)
Definition on_skin (mask : list Z) (M : Z) (p : Z * Z) : Prop :=
  let '(x, y) := p in
  in_bounds M x y = true /\ exists i, pixel_index M x y = Some i /\ is255 mask i = true.

Definition idx (M : Z) (p : Z * Z) : option Z := let '(x, y) := p in pixel_index M x y.

(** The state [(visited, contours)] of [findContours]: pairwise distinct
    contour points, every contour above the minimum size, every point on a
    skin pixel whose index is visited. *)
Definition contours_inv (mask : list Z) (st : list Z * list (list (Z * Z))) : Prop :=
  let M := Z.of_nat (length mask) in
  NoDup (concat (snd st)) /\ Forall (fun c => (100 < length c)%nat) (snd st) /\
  forall p, In p (concat (snd st)) ->
    on_skin mask M p /\ exists i, idx M p = Some i /\ In i (fst st).

End DetectorSpec.

Module RealSpec.
Import Estimator.

(** A peak as [findPeaks] records it: a strict local maximum of [signal]
    above [minPeakHeight], at an index of the loop range. *)
Definition peak_ok (signal timestamps : list Q) (p : peak) : Prop :=
  (1 <= pk_index p /\ pk_index p + 2 <= length signal)%nat
  /\ pk_value p = at_ signal (pk_index p)
  /\ pk_timestamp p = at_ timestamps (pk_index p)
  /\ at_ signal (pk_index p - 1) < pk_value p
  /\ at_ signal (pk_index p + 1) < pk_value p
  /\ minPeakHeight < pk_value p.

Definition peaks_inv (signal timestamps : list Q) (s : nat) (peaks : list peak) : Prop :=
  Sorted lt (map pk_index peaks)
  /\ Forall (fun d => minPeakDistance <= d) (intervals (map pk_timestamp peaks))
  /\ Forall (peak_ok signal timestamps) peaks
  /\ Forall (fun p => (pk_index p < s)%nat) peaks.

End RealSpec.

Module ProcessorSpec.
Import Estimator Pipeline.

Definition bounded (st : proc) : Prop :=
  (length (signalBuffer st) <= SignalBuffer.maxBufferSize)%nat
  /\ (length (heartRateHistory st) <= maxHistorySize)%nat
  /\ (length (bpHistory st) <= maxBPHistorySize)%nat.

Definition plausible (st : proc) : Prop :=
  Forall (fun h => (60 <= h <= 160)%Z) (heartRateHistory st)
  /\ Forall (fun bp => (20 <= fst bp - snd bp <= 57)%Z) (bpHistory st).

End ProcessorSpec.

Module AdvancedSpec.
Import Estimator Advanced.

(** A peak as [findPeaks] records it. *)
Definition apeak_ok (signal : list Q) (threshold : Q) (i : nat) : Prop :=
  (1 <= i /\ i + 2 <= length signal)%nat
  /\ at_ signal (i - 1) < at_ signal i /\ at_ signal (i + 1) < at_ signal i
  /\ threshold < at_ signal i.

Definition apeaks_inv (signal : list Q) (threshold : Q) (s : nat) (peaks : list nat) : Prop :=
  Forall (fun d => inject_Z minPeakDistance <= d) (Enhanced.peak_gaps peaks)
  /\ Forall (apeak_ok signal threshold) peaks
  /\ Forall (fun p => (p < s)%nat) peaks.

(** The order of the grades of [classifySignalQuality]. *)
Definition grade_rank (g : grade) : nat :=
  match g with Poor => 0 | Fair => 1 | Good => 2 | Excellent => 3 end.

End AdvancedSpec.

Module EnhancedSpec.
Import Estimator Enhanced.

(** The history invariant of [calculateMetrics]. *)
Definition histories_ok (st : state) : Prop :=
  length (heartRateHistory st) = length (confidenceHistory st)
  /\ (length (heartRateHistory st) <= 20)%nat
  /\ Forall (fun h => (60 <= h <= 150)%Z) (heartRateHistory st).

End EnhancedSpec.

(** ** A concrete input for [EnhancedPPGProcessor] *)
Module EnhancedFixtures.
Import Enhanced.

(** A triangle wave rising from 0 to 9 and back over 18 samples (0.6 s
    at 30 Hz). *)
Definition triangle (n : nat) : list Q :=
  map (fun i => inject_Z (9 - Z.abs (Z.of_nat (Nat.modulo i 18) - 9))) (seq 0 n).

(** 60 samples of the wave in every channel, and both histories at their
    cap of 20 entries (rates 70 .. 89, confidences 0.5). *)
Definition state_full : state :=
  mk_state (Parallel.mk_buffers (triangle 60) (triangle 60) (triangle 60)
                                (map (fun i => inject_Z (Z.of_nat i) / 30)%Q (seq 0 60)))
           (map (fun i => 70 + Z.of_nat i)%Z (seq 0 20))
           (repeat (1 # 2) 20).

End EnhancedFixtures.

(** * Properties *)

(** ** Signal buffer *)
Module SignalBufferFacts.
Import SignalBuffer.
Local Open Scope nat_scope.

Lemma tl_skipn {A} (k : nat) (l : list A) : tl (skipn k l) = skipn (S k) l.
Proof.
  revert l; induction k as [|k IH]; intros [|x l]; simpl; try reflexivity.
  apply IH.
Qed.

(** One [addToBuffer] on the window of the last [maxSize] samples of [xs]
    gives the window of the last [maxSize] samples of [xs ++ [x]]. *)
Lemma add_to_buffer_window {A} (maxSize : nat) (xs : list A) (x : A) :
  add_to_buffer maxSize (skipn (length xs - maxSize) xs) x
  = skipn (length (xs ++ [x]) - maxSize) (xs ++ [x]).
Proof.
  unfold add_to_buffer.
  rewrite length_app; simpl.
  assert (Happ : skipn (length xs - maxSize) xs ++ [x]
                 = skipn (length xs - maxSize) (xs ++ [x])).
  { rewrite skipn_app.
    replace (length xs - maxSize - length xs) with 0 by lia. reflexivity. }
  rewrite Happ, length_skipn, length_app; simpl.
  case Nat.ltb_spec; intros Hlen.
  - rewrite tl_skipn. f_equal. lia.
  - f_equal. lia.
Qed.

Lemma fill_window {A} (maxSize : nat) (xs : list A) :
  fill maxSize xs = skipn (length xs - maxSize) xs.
Proof.
  unfold fill.
  induction xs as [|xs x IH] using rev_ind.
  - reflexivity.
  - rewrite fold_left_app; simpl. rewrite IH. apply add_to_buffer_window.
Qed.

(** C1: after [N] appended samples the buffer holds [min(N, 300)] samples,
    never more than the capacity, and they are the last [300] samples in
    arrival order: for [N > 300] the oldest [N - 300] have been evicted. *)
Theorem signal_buffer_fifo {A} (xs : list A) :
  length (fill maxBufferSize xs) = Nat.min (length xs) maxBufferSize
  /\ (length (fill maxBufferSize xs) <= maxBufferSize)%nat
  /\ fill maxBufferSize xs = skipn (length xs - maxBufferSize) xs.
Proof.
  rewrite fill_window, length_skipn.
  repeat split; lia.
Qed.

End SignalBufferFacts.

(** ** Finger-detection hysteresis *)
Module FingerFacts.
Import Finger.

Definition tp_step {C} (n : nat) (c : option C) : nat :=
  match c with Some _ => S n | None => O end.

(** The detector state reached from [fd_init]: the counter is the length of
    the trailing run of positives, [fingerDetected] says whether that run
    has reached [requiredDetections]. *)
Lemma detect_positive_step {C} (c : C) (n : nat) :
  fst (detect_finger (Some c) (mk_fd (Nat.leb 5 n) (Z.of_nat n)))
  = mk_fd (Nat.leb 5 (S n)) (Z.of_nat (S n)).
Proof.
  unfold detect_finger, requiredDetections; cbn -[Nat.leb Z.of_nat].
  replace (Z.of_nat n + 1)%Z with (Z.of_nat (S n)) by lia.
  f_equal.
  rewrite Z.geb_leb.
  destruct (5 <=? Z.of_nat (S n))%Z eqn:E.
  - apply Z.leb_le in E. symmetry. apply (proj2 (Nat.leb_le 5 (S n))). lia.
  - apply Z.leb_gt in E. destruct (Nat.leb_spec 5 n); [lia|].
    symmetry. apply (proj2 (Nat.leb_gt 5 (S n))). lia.
Qed.

Lemma run_counter {C} (cs : list (option C)) (n : nat) :
  run cs (mk_fd (Nat.leb 5 n) (Z.of_nat n))
  = mk_fd (Nat.leb 5 (fold_left tp_step cs n)) (Z.of_nat (fold_left tp_step cs n)).
Proof.
  revert n; induction cs as [|c cs IH]; intros n; [reflexivity|].
  change (run (c :: cs) (mk_fd (Nat.leb 5 n) (Z.of_nat n)))
    with (run cs (fst (detect_finger c (mk_fd (Nat.leb 5 n) (Z.of_nat n))))).
  destruct c as [c|].
  - rewrite detect_positive_step. apply IH.
  - change (fst (detect_finger (@None C) (mk_fd (Nat.leb 5 n) (Z.of_nat n))))
      with (mk_fd (Nat.leb 5 0) (Z.of_nat 0)).
    apply IH.
Qed.

Lemma run_init {C} (cs : list (option C)) :
  run cs fd_init
  = mk_fd (Nat.leb 5 (trailing_positives cs)) (Z.of_nat (trailing_positives cs)).
Proof. apply (run_counter cs 0). Qed.

Definition pos : option unit := Some tt.
Definition neg : option unit := None.

(** The sequence [pos x4, neg, pos x5] of the spec. *)
Definition hysteresis_example : list (option unit) :=
  [pos; pos; pos; pos; neg; pos; pos; pos; pos; pos].

(** C3: from the initial (or reset) detector state, after any sequence of
    per-frame classifications the counter equals the number of trailing
    consecutive positives and [fingerDetected] is true exactly when that
    number has reached [requiredDetections = 5]; a negative classification
    sets the counter to 0 and [fingerDetected] to false from any state; on
    [pos x4, neg, pos x5] [fingerDetected] is false after each of the first
    nine frames and true after the tenth. *)
Theorem finger_hysteresis {C} (cs : list (option C)) :
  consecutiveDetections (run cs fd_init) = Z.of_nat (trailing_positives cs)
  /\ fingerDetected (run cs fd_init)
     = (requiredDetections <=? Z.of_nat (trailing_positives cs))%Z
  /\ (forall s : fd_state, fst (detect_finger (@None C) s) = mk_fd false 0)
  /\ (forall s : fd_state, reset s = fd_init)
  /\ map (fun k => fingerDetected (run (firstn k hysteresis_example) fd_init)) (seq 1 10)
     = [false; false; false; false; false; false; false; false; false; true].
Proof.
  rewrite run_init; cbn [consecutiveDetections fingerDetected].
  split; [reflexivity|]. split.
  { unfold requiredDetections.
    destruct (Nat.leb_spec 5 (trailing_positives cs));
      symmetry; [apply Z.leb_le | apply Z.leb_gt]; lia. }
  split; [reflexivity|]. split; [reflexivity|].
  vm_compute. reflexivity.
Qed.

(** C9 (counterexample): after six consecutive positive classifications
    from the initial state the returned confidence is [6/5 > 1]. *)
Lemma finger_confidence_exceeds_one :
  res_confidence (snd (detect_finger pos (run (repeat pos 5) fd_init))) == 6 # 5
  /\ (1 < res_confidence (snd (detect_finger pos (run (repeat pos 5) fd_init))))%Q.
Proof. split; vm_compute; reflexivity. Qed.

(** C9 (as the code has it): the confidence returned by [detectFinger] is
    [consecutiveDetections / requiredDetections] with no clamp: the number
    of trailing consecutive positives (this frame included) divided by 5;
    it is 0 on a negative frame, non-negative, and grows past 1 after more
    than 5 consecutive positives. *)
Theorem finger_confidence_ratio {C} (cs : list (option C)) (c : option C) :
  res_confidence (snd (detect_finger c (run cs fd_init)))
  = (inject_Z (Z.of_nat (trailing_positives (cs ++ [c]))) / inject_Z requiredDetections)%Q
  /\ (0 <= res_confidence (snd (detect_finger c (run cs fd_init))))%Q
  /\ (c = None -> res_confidence (snd (detect_finger c (run cs fd_init))) == 0)%Q.
Proof.
  assert (Hs : fst (detect_finger c (run cs fd_init)) = run (cs ++ [c]) fd_init).
  { unfold run at 2. rewrite fold_left_app. reflexivity. }
  assert (Hconf : res_confidence (snd (detect_finger c (run cs fd_init)))
                  = (inject_Z (consecutiveDetections (fst (detect_finger c (run cs fd_init))))
                     / inject_Z requiredDetections)%Q) by reflexivity.
  rewrite Hconf, Hs, run_init. simpl. repeat split.
  - unfold Qdiv, Qle; simpl. lia.
  - intros ->. unfold trailing_positives. rewrite fold_left_app. reflexivity.
Qed.

End FingerFacts.

(** ** Parallel buffers stay aligned *)
Module ParallelFacts.
Import Parallel.
Local Open Scope nat_scope.

Definition aligned (b : buffers) : Prop := exists l, b = of_samples l.

Definition same_lengths (b : buffers) : Prop :=
  length (redBuffer b) = length (greenBuffer b)
  /\ length (greenBuffer b) = length (blueBuffer b)
  /\ length (blueBuffer b) = length (timestamps b).

Lemma aligned_same_lengths (b : buffers) : aligned b -> same_lengths b.
Proof.
  intros [l ->]. unfold same_lengths, of_samples; simpl.
  rewrite !length_map. auto.
Qed.

Lemma trim_of_samples (fuel : nat) (l : list (rgb * Q)) :
  length l - bufferSize <= fuel ->
  trim fuel (of_samples l) = of_samples (skipn (length l - bufferSize) l).
Proof.
  revert l; induction fuel as [|fuel IH]; intros l Hf; simpl.
  - replace (length l - bufferSize) with 0 by lia. reflexivity.
  - rewrite length_map.
    case Nat.ltb_spec; intros Hlt.
    + destruct l as [|x l]; [simpl in Hlt; lia|].
      cbn [tl map].
      change (mk_buffers (map (fun p => red (fst p)) l) (map (fun p => green (fst p)) l)
                         (map (fun p => blue (fst p)) l) (map snd l))
        with (of_samples l).
      cbn [length] in Hf, Hlt.
      rewrite IH by lia. cbn [length].
      replace (S (length l) - bufferSize) with (S (length l - bufferSize)) by lia.
      reflexivity.
    + replace (length l - bufferSize) with 0 by lia. reflexivity.
Qed.

Lemma addToBuffer_of_samples (l : list (rgb * Q)) (v : rgb) (ts : Q) :
  addToBuffer (of_samples l) v ts
  = of_samples (skipn (length (l ++ [(v, ts)]) - bufferSize) (l ++ [(v, ts)])).
Proof.
  unfold addToBuffer.
  assert (E : mk_buffers (redBuffer (of_samples l) ++ [red v])
                         (greenBuffer (of_samples l) ++ [green v])
                         (blueBuffer (of_samples l) ++ [blue v])
                         (timestamps (of_samples l) ++ [ts])
              = of_samples (l ++ [(v, ts)]))
    by (unfold of_samples; simpl; rewrite !map_app; reflexivity).
  rewrite E.
  assert (Hlen : length (redBuffer (of_samples (l ++ [(v, ts)]))) = length (l ++ [(v, ts)]))
    by apply length_map.
  rewrite Hlen. apply trim_of_samples. lia.
Qed.

Lemma advanced_step_aligned (b : buffers) (o : op) :
  aligned b -> aligned (advanced_step b o).
Proof.
  intros [l ->]. destruct o as [v ts|v ts|]; simpl.
  1, 2: rewrite addToBuffer_of_samples; eexists; reflexivity.
  exists []. reflexivity.
Qed.

Lemma enhanced_step_aligned (isProcessing : bool) (b : buffers) (o : op) :
  aligned b -> aligned (enhanced_step isProcessing b o).
Proof.
  intros [l ->]. destruct o as [v ts|v ts|]; simpl.
  - destruct isProcessing; [exists l; reflexivity|].
    rewrite addToBuffer_of_samples; eexists; reflexivity.
  - rewrite addToBuffer_of_samples; eexists; reflexivity.
  - exists []. reflexivity.
Qed.

Lemma fold_aligned (step : buffers -> op -> buffers) (ops : list op) (b : buffers) :
  (forall b o, aligned b -> aligned (step b o)) ->
  aligned b -> aligned (fold_left step ops b).
Proof.
  intros Hstep; revert b; induction ops as [|o ops IH]; intros b Hb; simpl; auto.
Qed.

(** C10: in [AdvancedPPGProcessor] and in [EnhancedPPGProcessor], after
    any sequence of [processFrame], [addToBuffer] and [reset] calls from the
    constructor, [redBuffer], [greenBuffer], [blueBuffer] and [timestamps]
    have equal lengths; more precisely, each call maps four buffers that are
    the projections of one sample sequence to four such buffers, so the
    [i]-th entries always belong to the same sample. *)
Theorem parallel_buffers_aligned (isProcessing : bool) (ops : list op) :
  same_lengths (fold_left advanced_step ops buffers_init)
  /\ same_lengths (fold_left (enhanced_step isProcessing) ops buffers_init)
  /\ (forall b o, aligned b -> aligned (advanced_step b o))
  /\ (forall b o, aligned b -> aligned (enhanced_step isProcessing b o)).
Proof.
  assert (H0 : aligned buffers_init) by (exists []; reflexivity).
  split; [|split; [|split]].
  - apply aligned_same_lengths, fold_aligned; [apply advanced_step_aligned | exact H0].
  - apply aligned_same_lengths, fold_aligned; [apply enhanced_step_aligned | exact H0].
  - apply advanced_step_aligned.
  - apply enhanced_step_aligned.
Qed.

End ParallelFacts.

(** ** Heart-rate estimation and blood pressure *)
Module EstimatorFacts.
Import Estimator Fixtures.

Lemma fold_sum_const (l : list Q) (T a : Q) :
  Forall (fun d => d == T) l ->
  fold_left Qplus l a == a + inject_Z (Z.of_nat (length l)) * T.
Proof.
  revert a; induction l as [|d l IH]; intros a Hall; cbn [fold_left length].
  - simpl. ring.
  - inversion Hall as [|? ? Hd Hl]; subst.
    rewrite IH by exact Hl. rewrite Hd.
    rewrite Nat2Z.inj_succ, <- Z.add_1_r, inject_Z_plus. ring.
Qed.

Lemma length_intervals (ts : list Q) : length (intervals ts) = (length ts - 1)%nat.
Proof.
  induction ts as [|a [|b ts] IH]; simpl in *; try reflexivity.
  rewrite IH. lia.
Qed.

Lemma js_round_age_compat (childAge x y : Q) :
  x == y -> js_round (applyAgeConstraints childAge x)
            = js_round (applyAgeConstraints childAge y).
Proof.
  intros Hxy. unfold js_round, applyAgeConstraints.
  destruct (age_band childAge) as [minHR maxHR].
  apply Qfloor_comp. rewrite Hxy. reflexivity.
Qed.

(** C4: [calculateHeartRate] returns [null] when fewer than 2 peaks are
    detected; when the detected peaks are exactly [T] seconds apart it
    returns [Math.round] of [60/T] clamped to the age band; e.g. peaks every
    0.6 s on a 30 Hz window give 100 BPM (age 5, band [70,120]). *)
Theorem heart_rate_from_peaks (childAge : Q) (signal timestamps : list Q) (T : Q) :
  ((length (findPeaks signal timestamps) < 2)%nat ->
     calculateHeartRate childAge signal timestamps = None)
  /\ ((2 <= length (findPeaks signal timestamps))%nat ->
      Forall (fun d => d == T) (intervals (map pk_timestamp (findPeaks signal timestamps))) ->
      calculateHeartRate childAge signal timestamps
      = Some (js_round (applyAgeConstraints childAge (60 / T))))
  /\ map pk_timestamp (findPeaks pulse_signal pulse_timestamps) = [9 # 30; 27 # 30; 45 # 30; 63 # 30; 81 # 30]
  /\ calculateHeartRate 5 pulse_signal pulse_timestamps = Some 100%Z.
Proof.
  split; [|split; [|split]].
  - intros Hlt. unfold calculateHeartRate.
    destruct (Nat.ltb_spec (length (findPeaks signal timestamps)) 2); [reflexivity | lia].
  - intros Hge Hall. unfold calculateHeartRate.
    destruct (Nat.ltb_spec (length (findPeaks signal timestamps)) 2) as [|_]; [lia|].
    f_equal. apply js_round_age_compat.
    set (ivs := intervals (map pk_timestamp (findPeaks signal timestamps))) in *.
    assert (Hlen : (1 <= length ivs)%nat).
    { unfold ivs. rewrite length_intervals, length_map. lia. }
    assert (Hnz : ~ inject_Z (Z.of_nat (length ivs)) == 0).
    { unfold Qeq; simpl. lia. }
    assert (Havg : sumQ ivs / inject_Z (Z.of_nat (length ivs)) == T).
    { unfold sumQ. rewrite (fold_sum_const ivs T 0 Hall). field. exact Hnz. }
    rewrite Havg. reflexivity.
  - vm_compute. reflexivity.
  - vm_compute. reflexivity.
Qed.

Lemma js_round_bounds (a b : Z) (x : Q) :
  inject_Z a <= x -> x <= inject_Z b -> (a <= js_round x <= b)%Z.
Proof.
  intros Ha Hb. unfold js_round. split.
  - rewrite <- (Qfloor_Z a). apply Qfloor_resp_le. lra.
  - apply Z.le_trans with (Qfloor (inject_Z b + (1 # 2))).
    + apply Qfloor_resp_le. lra.
    + unfold Qfloor, Qplus, inject_Z; simpl.
      assert ((b * 2 + 1) / 2 < b + 1)%Z by (apply Z.div_lt_upper_bound; lia). lia.
Qed.

Lemma qle_cases (a b : Q) : (qle a b = true /\ a <= b) \/ (qle a b = false /\ b < a).
Proof.
  unfold qle. destruct (Qle_bool a b) eqn:E.
  - left. split; [reflexivity|]. apply Qle_bool_iff. exact E.
  - right. split; [reflexivity|]. apply Qnot_le_lt. intros H.
    apply Qle_bool_iff in H. congruence.
Qed.

Lemma qlt_cases (a b : Q) : (qlt a b = true /\ a < b) \/ (qlt a b = false /\ b <= a).
Proof.
  unfold qlt. destruct (qle_cases b a) as [[E H] | [E H]]; unfold qle in E; rewrite E; simpl.
  - right. auto.
  - left. auto.
Qed.

Lemma clamp_70_140 (x : Q) : 70 <= Qmax 70 (Qmin 140 x) <= 140.
Proof.
  destruct (Q.max_spec 70 (Qmin 140 x)) as [[H1 H2] | [H1 H2]];
    destruct (Q.min_spec 140 x) as [[H3 H4] | [H3 H4]]; rewrite H2; try rewrite H4; lra.
Qed.

Lemma systolic_range (childAge : Q) (pf : pulse_features) (hr : Z) :
  70 <= calculateSystolicBP childAge pf hr <= 140.
Proof. apply clamp_70_140. Qed.

(** With the heart rate inside the age band, the unclamped systolic value
    [baseSystolic] lies in [[75, 110]]. *)
Lemma systolic_in_band (childAge : Q) (pf : pulse_features) (hr : Z) :
  (fst (age_band childAge) <= hr <= snd (age_band childAge))%Z ->
  75 <= calculateSystolicBP childAge pf hr <= 110.
Proof.
  intros Hhr. unfold calculateSystolicBP. cbv zeta.
  match goal with |- context [Qmax 70 (Qmin 140 ?x)] => set (b3 := x) end.
  assert (Hb : 75 <= b3 <= 110).
  { unfold b3, age_band, getAgeAdjustment in *.
    assert (Hq : forall z : Z, (z <= hr)%Z -> (z # 1) <= inject_Z hr)
      by (intros z Hz; change (z # 1) with (inject_Z z); rewrite <- Zle_Qle; exact Hz).
    assert (Hq' : forall z : Z, (hr <= z)%Z -> inject_Z hr <= (z # 1))
      by (intros z Hz; change (z # 1) with (inject_Z z); rewrite <- Zle_Qle; exact Hz).
    destruct (qle_cases childAge 1) as [[E1 _] | [E1 _]]; rewrite E1 in *;
    [| destruct (qle_cases childAge 3) as [[E2 _] | [E2 _]]; rewrite E2 in *;
    [| destruct (qle_cases childAge 5) as [[E3 _] | [E3 _]]; rewrite E3 in *;
    [| destruct (qle_cases childAge 7) as [[E4 _] | [E4 _]]; rewrite E4 in *]]];
    simpl in Hhr; destruct Hhr as [Hlo Hhi]; apply Hq in Hlo; apply Hq' in Hhi;
    destruct (qlt_cases 100 (inject_Z hr)) as [[F1 G1] | [F1 G1]]; rewrite F1;
    try (destruct (qlt_cases (inject_Z hr) 70) as [[F2 G2] | [F2 G2]]; rewrite F2);
    destruct (qlt_cases (9 # 100) (pf_variance pf)) as [[F3 G3] | [F3 G3]]; rewrite F3;
    try (destruct (qlt_cases (pf_variance pf) (1 # 100)) as [[F4 G4] | [F4 G4]]; rewrite F4);
    split; lra. }
  destruct (Q.max_spec 70 (Qmin 140 b3)) as [[H1 H2] | [H1 H2]]; rewrite H2;
    destruct (Q.min_spec 140 b3) as [[H3 H4] | [H3 H4]]; try rewrite H4 in *; lra.
Qed.

(** [calculateBloodPressure] clamps the systolic estimate to [[70, 140]]
    and then adds the temperature compensation [2 * (temperature - 37)] to
    both systolic and diastolic before rounding; for a temperature in
    [[35, 42]] the returned systolic lies in [[66, 150]] for any heart-rate
    input, and in [[70, 140]] when the heart rate lies in the age band of
    [childAge]. *)
Lemma blood_pressure_compensated_range (childAge temperature rnd : Q)
  (signal : list Q) (hr systolic diastolic : Z) :
  calculateBloodPressure childAge temperature rnd signal (Some hr) = Some (systolic, diastolic) ->
  35 <= temperature <= 42 ->
  let sys0 := calculateSystolicBP childAge (extractPulseWaveFeatures signal) hr in
  70 <= sys0 <= 140
  /\ systolic = js_round (applyTemperatureCompensation temperature sys0)
  /\ diastolic = js_round (applyTemperatureCompensation temperature
                              (calculateDiastolicBP rnd sys0))
  /\ (66 <= systolic <= 150)%Z
  /\ ((fst (age_band childAge) <= hr <= snd (age_band childAge))%Z ->
      (70 <= systolic <= 140)%Z).
Proof.
  intros Hbp [Tlo Thi] sys0.
  unfold calculateBloodPressure in Hbp.
  destruct (hr =? 0)%Z; [discriminate|].
  injection Hbp as Hs Hd. fold sys0 in Hs, Hd.
  pose proof (systolic_range childAge (extractPulseWaveFeatures signal) hr) as Hr.
  fold sys0 in Hr.
  split; [exact Hr|]. split; [now symmetry|]. split; [now symmetry|].
  unfold applyTemperatureCompensation in Hs.
  split.
  - rewrite <- Hs. apply js_round_bounds; unfold inject_Z; lra.
  - intros Hband.
    pose proof (systolic_in_band childAge (extractPulseWaveFeatures signal) hr Hband) as Hb.
    fold sys0 in Hb.
    rewrite <- Hs. apply js_round_bounds; unfold inject_Z; lra.
Qed.

End EstimatorFacts.

(** ** The orchestrator [processFrame] *)
Module PipelineFacts.
Import Estimator Pipeline.

Section Processor.
Variable findFingerContour : list Z -> option contour.
Variable extractPPGSignal : list Z -> contour -> option sample.
Variable calculateConfidence : list Q -> option Z -> Q.

Local Abbreviation process := (processFrame findFingerContour extractPPGSignal calculateConfidence).

Lemma assessSignalQuality_not_collecting (c : Q) : assessSignalQuality c <> Collecting.
Proof.
  unfold assessSignalQuality.
  destruct (qle (8 # 10) c); [discriminate|].
  destruct (qle (6 # 10) c); [discriminate|].
  destruct (qle (4 # 10) c); discriminate.
Qed.

(** C2: on an accepted frame (not throttled, image extracted, finger
    detected, PPG sample extracted), while the buffer holds fewer than
    [minValidSamples = 90] samples after the append, [processFrame]
    returns the ['collecting'] result with confidence
    [length / minValidSamples] and no heart rate; from 90 samples on it
    returns the result assembled from [calculateVitalSigns], whose
    quality is never ['collecting']. *)
Theorem processFrame_collecting_gate (st : proc) (f : frame) (now : Z) (rnd : Q)
  (img : list Z) (c : contour) (s : sample) :
  (processingInterval <= now - lastProcessTime st)%Z ->
  extractImageData f = Some img ->
  findFingerContour img = Some c ->
  Finger.res_fingerDetected (snd (Finger.detect_finger (Some c) (fingerDetector st))) = true ->
  extractPPGSignal img c = Some s ->
  let st3 := addToBuffer (set_detector (set_lastProcessTime st now)
                                       (fst (Finger.detect_finger (Some c) (fingerDetector st)))) s in
  let n := length (signalBuffer st3) in
  ((n < minValidSamples)%nat ->
     snd (process st f now rnd) = Some (collecting_result n)
     /\ r_quality (collecting_result n) = Collecting
     /\ r_confidence (collecting_result n)
        = (inject_Z (Z.of_nat n) / inject_Z (Z.of_nat minValidSamples))%Q
     /\ r_heartRate (collecting_result n) = None)
  /\ ((minValidSamples <= n)%nat ->
     let (st4, vs) := calculateVitalSigns calculateConfidence st3 rnd in
     snd (process st f now rnd) = Some (full_result st4 vs)
     /\ r_quality (full_result st4 vs) <> Collecting).
Proof.
  intros Hthr Himg Hffc Hdet Hppg st3 n.
  unfold processFrame.
  destruct (Z.ltb_spec (now - lastProcessTime st) processingInterval) as [Hlt|_]; [lia|].
  rewrite Himg. cbn [fingerDetector set_lastProcessTime]. rewrite Hffc.
  destruct (Finger.detect_finger (Some c) (fingerDetector st)) as [d' fd] eqn:Edet.
  cbn [fst snd] in *.
  assert (Hcont : Finger.res_contour fd = Some c)
    by (unfold Finger.detect_finger in Edet; injection Edet as _ <-; reflexivity).
  rewrite Hdet, Hcont. cbn [negb]. rewrite Hppg.
  fold st3. fold n.
  split.
  - intros Hn. destruct (Nat.leb_spec minValidSamples n); [lia|].
    repeat split.
  - intros Hn. destruct (Nat.leb_spec minValidSamples n); [|lia].
    assert (Hq : v_quality (snd (calculateVitalSigns calculateConfidence st3 rnd)) <> Collecting).
    { unfold calculateVitalSigns.
      destruct (Nat.ltb_spec (length (signalBuffer st3)) minValidSamples); [lia|].
      cbv beta iota zeta. apply assessSignalQuality_not_collecting. }
    destruct (calculateVitalSigns calculateConfidence st3 rnd) as [st4 vs].
    split; [reflexivity | exact Hq].
Qed.

(** The value of [processFrame] on an accepted frame that brings the
    buffer to [minValidSamples] samples or more. *)
Lemma processFrame_full_branch (st : proc) (f : frame) (now : Z) (rnd : Q)
  (img : list Z) (c : contour) (s : sample) :
  (processingInterval <= now - lastProcessTime st)%Z ->
  extractImageData f = Some img ->
  findFingerContour img = Some c ->
  Finger.res_fingerDetected (snd (Finger.detect_finger (Some c) (fingerDetector st))) = true ->
  extractPPGSignal img c = Some s ->
  (minValidSamples <= length (signalBuffer
     (addToBuffer (set_detector (set_lastProcessTime st now)
                    (fst (Finger.detect_finger (Some c) (fingerDetector st)))) s)))%nat ->
  process st f now rnd
  = let st3 := addToBuffer (set_detector (set_lastProcessTime st now)
                              (fst (Finger.detect_finger (Some c) (fingerDetector st)))) s in
    (fst (calculateVitalSigns calculateConfidence st3 rnd),
     Some (full_result (fst (calculateVitalSigns calculateConfidence st3 rnd))
                       (snd (calculateVitalSigns calculateConfidence st3 rnd)))).
Proof.
  intros Hthr Himg Hffc Hdet Hppg Hn.
  unfold processFrame.
  destruct (Z.ltb_spec (now - lastProcessTime st) processingInterval); [lia|].
  rewrite Himg. cbn [fingerDetector set_lastProcessTime]. rewrite Hffc.
  destruct (Finger.detect_finger (Some c) (fingerDetector st)) as [d' fd] eqn:Edet.
  cbn [fst snd] in *.
  assert (Hcont : Finger.res_contour fd = Some c)
    by (unfold Finger.detect_finger in Edet; injection Edet as _ <-; reflexivity).
  rewrite Hdet, Hcont. cbn [negb]. rewrite Hppg.
  destruct (Nat.leb_spec minValidSamples
              (length (signalBuffer (addToBuffer (set_detector (set_lastProcessTime st now) d') s))));
    [|lia].
  destruct (calculateVitalSigns calculateConfidence
              (addToBuffer (set_detector (set_lastProcessTime st now) d') s) rnd).
  reflexivity.
Qed.

(** The value of [processFrame] when the image extraction raises. *)
Lemma processFrame_extraction_exception (st : proc) (f : frame) (now : Z) (rnd : Q)
  (e : js_exn) :
  (processingInterval <= now - lastProcessTime st)%Z ->
  extractImageData_body f = inl e ->
  process st f now rnd = (set_lastProcessTime st now, None).
Proof.
  intros Hthr Hexn. unfold processFrame.
  destruct (Z.ltb_spec (now - lastProcessTime st) processingInterval); [lia|].
  unfold extractImageData. rewrite Hexn. reflexivity.
Qed.

(** C6 (as the code has it): [processFrame] returns [null] exactly when
    the throttle rejects the call, or the image extraction fails
    ([extractImageData] caught an exception), or a finger is reported but
    [extractPPGSignal] yields no sample; every other call returns a
    result object. *)
Theorem processFrame_null_cases (st : proc) (f : frame) (now : Z) (rnd : Q) :
  snd (process st f now rnd) = None
  <-> (now - lastProcessTime st < processingInterval)%Z
      \/ ((processingInterval <= now - lastProcessTime st)%Z
          /\ match extractImageData f with
             | None => True
             | Some img =>
                 let fd := snd (Finger.detect_finger (findFingerContour img) (fingerDetector st)) in
                 Finger.res_fingerDetected fd = true
                 /\ match Finger.res_contour fd with
                    | Some c => extractPPGSignal img c
                    | None => None
                    end = None
             end).
Proof.
  unfold processFrame.
  destruct (Z.ltb_spec (now - lastProcessTime st) processingInterval) as [Hlt|Hge].
  - split; [intros _; left; exact Hlt | reflexivity].
  - assert (Hnot : ~ (now - lastProcessTime st < processingInterval)%Z) by lia.
    destruct (extractImageData f) as [img|].
    2: { split; [intros _; right; split; [exact Hge | exact I] | reflexivity]. }
    cbn [fingerDetector set_lastProcessTime].
    destruct (Finger.detect_finger (findFingerContour img) (fingerDetector st)) as [d' fd].
    cbn [snd].
    destruct (Finger.res_fingerDetected fd); cbn [negb].
    + destruct (match Finger.res_contour fd with
                | Some c => extractPPGSignal img c
                | None => None
                end) as [s|].
      * destruct (Nat.leb minValidSamples _).
        -- destruct (calculateVitalSigns calculateConfidence _ rnd).
           split; [discriminate | intros [H | [_ [_ H]]]; [contradiction | discriminate]].
        -- split; [discriminate | intros [H | [_ [_ H]]]; [contradiction | discriminate]].
      * split; [intros _; right; split; [exact Hge | split; reflexivity] | reflexivity].
    + split; [discriminate | intros [H | [_ [H _]]]; [contradiction | discriminate]].
Qed.

(** C8 (as the code has it): an exception raised inside image extraction
    is caught by [extractImageData] itself, so [processFrame] returns
    [null] (not an ['error'] result); the buffer, both histories and the
    detector state are untouched, only the throttle clock advances, as
    on any processed frame. *)
Theorem processFrame_stage_exception_contained (st : proc) (f : frame) (now : Z) (rnd : Q)
  (e : js_exn) :
  (processingInterval <= now - lastProcessTime st)%Z ->
  extractImageData_body f = inl e ->
  snd (process st f now rnd) = None
  /\ signalBuffer (fst (process st f now rnd)) = signalBuffer st
  /\ heartRateHistory (fst (process st f now rnd)) = heartRateHistory st
  /\ bpHistory (fst (process st f now rnd)) = bpHistory st
  /\ fingerDetector (fst (process st f now rnd)) = fingerDetector st
  /\ lastProcessTime (fst (process st f now rnd)) = now.
Proof.
  intros Hthr Hexn.
  rewrite (processFrame_extraction_exception st f now rnd e Hthr Hexn).
  repeat split.
Qed.

End Processor.

End PipelineFacts.

(** ** Concrete runs of [processFrame] *)
Module PipelineRuns.
Import Estimator Pipeline Fixtures PipelineFacts.

(** Witness of C2: the fifth consecutive positive frame on an empty buffer
    is accepted and reported as ['collecting'] with progress 1/90. *)
Lemma processFrame_collecting_gate_witness :
  snd (processFrame some_contour (const_sample sample0) zero_confidence
                    proc_four_positives (Some (1, 1)%Z) 1000 0)
  = Some (collecting_result 1).
Proof.
  destruct (processFrame_collecting_gate some_contour (const_sample sample0) zero_confidence
              proc_four_positives (Some (1, 1)%Z) 1000 0 [128; 128; 128; 255]%Z
              [(0, 0)%Z] sample0)
    as [Hcollect _].
  - unfold processingInterval; simpl; lia.
  - reflexivity.
  - reflexivity.
  - reflexivity.
  - reflexivity.
  - apply Hcollect. apply Nat.ltb_lt. vm_compute. reflexivity.
Defined.

(** C6 (counterexample): a [null] frame arriving after the throttle
    interval makes [extractImageData] raise a [TypeError], which it catches
    and turns into [null]; [processFrame] then returns [null] although the
    throttle accepted the call.  The stage functions are not reached. *)
Lemma processFrame_null_frame_returns_null :
  (processingInterval <= 1000 - lastProcessTime proc_init)%Z
  /\ extractImageData_body None = inl TypeError
  /\ snd (processFrame no_contour no_sample zero_confidence proc_init None 1000 0) = None.
Proof.
  split; [unfold processingInterval; simpl; lia|].
  split; reflexivity.
Qed.

(** C8 (counterexample): a frame of width -1 makes
    [new Uint8ClampedArray(-4)] raise a [RangeError] inside
    [extractImageData]; the stage catches it and [processFrame] returns
    [null], not a result with quality ['error']. *)
Lemma processFrame_stage_exception_gives_null :
  (processingInterval <= 1000 - lastProcessTime proc_init)%Z
  /\ extractImageData_body (Some (-1, 1)%Z) = inl RangeError
  /\ snd (processFrame no_contour no_sample zero_confidence proc_init (Some (-1, 1)%Z) 1000 0)
     = None.
Proof.
  split; [unfold processingInterval; simpl; lia|].
  split; reflexivity.
Qed.

(** Witness of C8 at a [null] frame. *)
Lemma processFrame_stage_exception_contained_witness :
  snd (processFrame no_contour no_sample zero_confidence proc_init None 1000 0) = None
  /\ signalBuffer (fst (processFrame no_contour no_sample zero_confidence proc_init None 1000 0))
     = signalBuffer proc_init
  /\ heartRateHistory (fst (processFrame no_contour no_sample zero_confidence proc_init None 1000 0))
     = heartRateHistory proc_init
  /\ bpHistory (fst (processFrame no_contour no_sample zero_confidence proc_init None 1000 0))
     = bpHistory proc_init
  /\ fingerDetector (fst (processFrame no_contour no_sample zero_confidence proc_init None 1000 0))
     = fingerDetector proc_init
  /\ lastProcessTime (fst (processFrame no_contour no_sample zero_confidence proc_init None 1000 0))
     = 1000%Z.
Proof.
  apply (processFrame_stage_exception_contained no_contour no_sample zero_confidence
           proc_init None 1000 0 TypeError).
  - unfold processingInterval; simpl; lia.
  - reflexivity.
Defined.

(** The fields of [calculateVitalSigns]'s result on a buffer of at least
    [minValidSamples] samples that do not depend on the confidence score or
    on [Math.random()]. *)
Lemma calculateVitalSigns_fields (cc : list Q -> option Z -> Q) (st : proc) (rnd : Q) :
  (minValidSamples <= length (signalBuffer st))%nat ->
  let hr := calculateHeartRate (childAge st) (applySignalProcessing (map s_value (signalBuffer st)))
                               (map s_timestamp (signalBuffer st)) in
  v_heartRate (snd (calculateVitalSigns cc st rnd)) = hr
  /\ heartRateHistory (fst (calculateVitalSigns cc st rnd))
     = match truthy_hr hr with
       | Some h => updateHeartRateHistory (heartRateHistory st) h
       | None => heartRateHistory st
       end
  /\ signalBuffer (fst (calculateVitalSigns cc st rnd)) = signalBuffer st
  /\ childAge (fst (calculateVitalSigns cc st rnd)) = childAge st.
Proof.
  intros Hlen hr. unfold calculateVitalSigns.
  assert (E : Nat.ltb (length (signalBuffer st)) minValidSamples = false)
    by (apply Nat.ltb_ge; exact Hlen).
  rewrite E. repeat split.
Qed.

(** Appending samples one by one with [addToBuffer] only changes the buffer. *)
Lemma fold_addToBuffer (l : list sample) (st : proc) :
  fold_left addToBuffer l st
  = set_buffer st (fold_left (SignalBuffer.add_to_buffer SignalBuffer.maxBufferSize) l
                             (signalBuffer st)).
Proof.
  revert st; induction l as [|x l IH]; intros st; cbn [fold_left].
  - destruct st; reflexivity.
  - rewrite IH. destruct st; reflexivity.
Qed.

(** C5 (code bug): [calculateVitalSigns] returns the heart rate that
    [calculateHeartRate] computes from the current buffer, whatever the
    history holds; the history is only appended to.  Through the public
    methods of [RealPPGProcessor]: 90 samples of a pulse every 20 samples
    (0.667 s) give 90 BPM and the history [[90]]; after 303 more samples of
    a pulse every 18 samples (0.6 s), which replace the whole buffer, the
    next call returns 100 BPM while the history becomes [[90; 100]], whose
    median ([AdvancedPPGProcessor.getSmoothedHeartRate]) and trailing mean
    ([EnhancedPPGProcessor.getSmoothedHeartRate]) are both 95. *)
Theorem calculateVitalSigns_heart_rate_unsmoothed :
  (forall (calculateConfidence : list Q -> option Z -> Q) (st : proc) (rnd : Q),
     (minValidSamples <= length (signalBuffer st))%nat ->
     v_heartRate (snd (calculateVitalSigns calculateConfidence st rnd))
     = calculateHeartRate (childAge st) (applySignalProcessing (map s_value (signalBuffer st)))
                          (map s_timestamp (signalBuffer st)))
  /\ (let st1 := fold_left addToBuffer (pulse_run 20 0 90) proc_init in
      let r1 := calculateVitalSigns zero_confidence st1 (1 # 2) in
      let st3 := fold_left addToBuffer (pulse_run 18 90 303) (fst r1) in
      let r2 := calculateVitalSigns zero_confidence st3 (1 # 2) in
      v_heartRate (snd r1) = Some 90%Z
      /\ heartRateHistory (fst r1) = [90%Z]
      /\ v_heartRate (snd r2) = Some 100%Z
      /\ heartRateHistory (fst r2) = [90; 100]%Z
      /\ Smoothing.advanced_getSmoothedHeartRate [90; 100]%Q = Some 95%Q
      /\ Smoothing.enhanced_getSmoothedHeartRate [90; 100]%Z = Some 95%Z).
Proof.
  split.
  - intros cc st rnd Hlen. apply (calculateVitalSigns_fields cc st rnd Hlen).
  - cbv zeta. rewrite (fold_addToBuffer (pulse_run 20 0 90)).
    assert (F1 : fold_left (SignalBuffer.add_to_buffer SignalBuffer.maxBufferSize) (pulse_run 20 0 90)
                           (signalBuffer proc_init) = pulse_run 20 0 90)
      by (vm_compute; reflexivity).
    rewrite F1.
    pose proof (calculateVitalSigns_fields zero_confidence (set_buffer proc_init (pulse_run 20 0 90))
                  (1 # 2) ltac:(apply Nat.leb_le; vm_compute; reflexivity)) as Hf1.
    cbv zeta in Hf1.
    assert (R1 : calculateHeartRate 5 (applySignalProcessing (map s_value (pulse_run 20 0 90)))
                   (map s_timestamp (pulse_run 20 0 90)) = Some 90%Z)
      by (vm_compute; reflexivity).
    cbn [set_buffer signalBuffer childAge heartRateHistory proc_init] in Hf1.
    rewrite R1 in Hf1.
    destruct (calculateVitalSigns zero_confidence (set_buffer proc_init (pulse_run 20 0 90)) (1 # 2))
      as [st2 v1].
    cbn [fst snd] in Hf1 |- *. destruct Hf1 as [V1 [H1 [B1 C1]]].
    rewrite (fold_addToBuffer (pulse_run 18 90 303)), B1.
    assert (F2 : fold_left (SignalBuffer.add_to_buffer SignalBuffer.maxBufferSize) (pulse_run 18 90 303)
                           (pulse_run 20 0 90) = pulse_run 18 93 300)
      by (vm_compute; reflexivity).
    rewrite F2.
    pose proof (calculateVitalSigns_fields zero_confidence (set_buffer st2 (pulse_run 18 93 300))
                  (1 # 2)) as Hf2.
    cbv zeta in Hf2. cbn [set_buffer signalBuffer childAge heartRateHistory] in Hf2.
    rewrite C1, H1 in Hf2.
    assert (R2 : calculateHeartRate 5 (applySignalProcessing (map s_value (pulse_run 18 93 300)))
                   (map s_timestamp (pulse_run 18 93 300)) = Some 100%Z)
      by (vm_compute; reflexivity).
    rewrite R2 in Hf2.
    destruct Hf2 as [V2 [H2 _]]; [apply Nat.leb_le; vm_compute; reflexivity|].
    rewrite V1, H1, V2, H2.
    repeat split; vm_compute; reflexivity.
Qed.

End PipelineRuns.

Module DetectorFacts.
Import Pipeline Detector DetectorSpec.

Lemma js_round_inject (z : Z) : js_round (inject_Z z) = z.
Proof.
  unfold js_round, Qfloor, inject_Z, Qplus; cbn [Qnum Qden].
  symmetry; apply Z.div_unique with 1%Z; lia.
Qed.

Lemma js_round_compat (x y : Q) : (x == y)%Q -> js_round x = js_round y.
Proof. intros H; unfold js_round; apply Qfloor_comp; now rewrite H. Qed.

Lemma Qmax_same (r : Q) : Qmax r r = r.
Proof. unfold Qmax, GenericMinMax.gmax; now destruct (r ?= r)%Q. Qed.

Lemma Qmin_same (r : Q) : Qmin r r = r.
Proof. unfold Qmin, GenericMinMax.gmin; now destruct (r ?= r)%Q. Qed.

(** A grey pixel [R = G = B] has hue 0 and saturation 0. *)
Lemma hsv_grey (v a : Z) : hsv_pixel v v v a = (0, 0, u8clamp v, u8clamp a).
Proof.
  unfold hsv_pixel. cbv zeta.
  rewrite !Qmax_same, !Qmin_same.
  set (r := (inject_Z v / 255)%Q).
  assert (Hd : Qeq_bool (r - r) 0 = true)
    by (apply Qeq_bool_iff; ring).
  assert (Hs : js_round ((if Qeq_bool r 0 then 0 else (r - r) / r) * 255) = 0).
  { destruct (Qeq_bool r 0); [reflexivity|].
    rewrite (js_round_compat _ 0); [reflexivity|].
    unfold Qminus; rewrite Qplus_opp_r. unfold Qdiv. now rewrite !Qmult_0_l. }
  assert (Hv : js_round (r * 255) = v).
  { rewrite (js_round_compat _ (inject_Z v)); [now rewrite js_round_inject|].
    unfold r; field. }
  rewrite Hd, Hs, Hv. reflexivity.
Qed.

Lemma isSkin_unsaturated (h v : Z) : isSkin h 0 v = false.
Proof.
  unfold isSkin, skinColorRanges, existsb, in_range.
  destruct (0 <=? h), (h <=? 20), (h <=? 25), (h <=? 30); reflexivity.
Qed.

Lemma rgbToHsv_grey (px : list (Z * Z)) :
  rgbToHsv (concat (map grey px))
  = concat (map (fun '(v, a) => [0; 0; u8clamp v; u8clamp a]) px).
Proof.
  induction px as [|[v a] px IH]; [reflexivity|].
  cbn [map concat grey app rgbToHsv]. rewrite hsv_grey, IH. reflexivity.
Qed.

Lemma createSkinMask_grey (px : list (Z * Z)) :
  createSkinMask (concat (map (fun '(v, a) => [0; 0; u8clamp v; u8clamp a]) px))
  = repeat 0 (length px).
Proof.
  induction px as [|[v a] px IH]; [reflexivity|].
  cbn [map concat app createSkinMask]. rewrite isSkin_unsaturated, IH. reflexivity.
Qed.

Lemma fold_left_fixed {A B} (f : A -> B -> A) (l : list B) (a : A) :
  (forall b, f a b = a) -> fold_left f l a = a.
Proof. intros H; induction l as [|b l IH]; simpl; [reflexivity|]. now rewrite H. Qed.


Lemma filter_remove_one (p : nat -> bool) (j0 : nat) (l : list nat) :
  NoDup l -> In j0 l -> p j0 = true ->
  (length (filter (fun j => p j && negb (Nat.eqb j j0)) l) + 1 = length (filter p l))%nat.
Proof.
  induction l as [|a l IH]; intros Hnd Hin Hp; [destruct Hin|].
  inversion Hnd as [|? ? Hna Hnd']; subst.
  destruct (Nat.eqb_spec a j0) as [->|Hne].
  - cbn [filter]. rewrite Hp, Nat.eqb_refl. cbn [andb negb length].
    rewrite (filter_ext_in _ p); [lia|].
    intros j Hj. destruct (Nat.eqb_spec j j0); [subst; contradiction|].
    now rewrite andb_true_r.
  - destruct Hin as [->|Hin]; [congruence|].
    specialize (IH Hnd' Hin Hp).
    assert (Nat.eqb a j0 = false) as Ha by (apply Nat.eqb_neq; exact Hne).
    cbn [filter]. rewrite Ha. destruct (p a); cbn [andb negb length]; lia.
Qed.

Lemma mem_false (i : Z) (visited : list Z) : mem i visited = false <-> ~ In i visited.
Proof.
  unfold mem. split.
  - intros H Hin. assert (existsb (Z.eqb i) visited = true) by
      (apply existsb_exists; exists i; split; [exact Hin | apply Z.eqb_refl]). congruence.
  - intros H. destruct (existsb (Z.eqb i) visited) eqn:E; [|reflexivity].
    apply existsb_exists in E as [j [Hj Heq]]. apply Z.eqb_eq in Heq; subst. contradiction.
Qed.

Lemma is255_lt (mask : list Z) (i : Z) : is255 mask i = true -> (Z.to_nat i < length mask)%nat.
Proof.
  unfold is255. destruct (nth_error mask (Z.to_nat i)) eqn:E; [|discriminate].
  intros _. apply nth_error_Some. congruence.
Qed.

Lemma pixel_index_nonneg (M x y i : Z) :
  in_bounds M x y = true -> pixel_index M x y = Some i -> 0 <= i.
Proof.
  unfold in_bounds, pixel_index. intros Hb.
  apply andb_prop in Hb as [Hb _]. apply andb_prop in Hb as [Hb Hy].
  apply andb_prop in Hb as [Hx _]. apply Z.leb_le in Hx, Hy.
  destruct (y =? 0); [intros E; injection E; lia|].
  destruct (Z.sqrt M * Z.sqrt M =? M); [|discriminate].
  intros E; injection E as <-. pose proof (Z.sqrt_nonneg M). nia.
Qed.

Lemma count_mark (mask visited : list Z) (i : Z) :
  0 <= i -> is255 mask i = true -> mem i visited = false ->
  (count_unvisited mask (i :: visited) + 1 = count_unvisited mask visited)%nat.
Proof.
  intros Hi H255 Hmem. unfold count_unvisited.
  rewrite <- (filter_remove_one
    (fun j => is255 mask (Z.of_nat j) && negb (mem (Z.of_nat j) visited)) (Z.to_nat i)).
  - f_equal. f_equal. apply filter_ext. intros j.
    unfold mem at 1; cbn [existsb]. fold (mem (Z.of_nat j) visited).
    assert (Z.eqb (Z.of_nat j) i = Nat.eqb j (Z.to_nat i)) as ->.
    { destruct (Z.eqb_spec (Z.of_nat j) i), (Nat.eqb_spec j (Z.to_nat i)); lia. }
    destruct (is255 mask (Z.of_nat j)), (Nat.eqb j (Z.to_nat i)), (mem (Z.of_nat j) visited);
      reflexivity.
  - apply seq_NoDup.
  - apply in_seq. pose proof (is255_lt mask i H255). lia.
  - rewrite Z2Nat.id by exact Hi. now rewrite H255, Hmem.
Qed.

Lemma count_unvisited_le (mask visited : list Z) : (count_unvisited mask visited <= length mask)%nat.
Proof.
  unfold count_unvisited. rewrite <- (length_seq (length mask) 0) at 2. apply filter_length_le.
Qed.

(** [fill_fuel] is enough: from a stack of [s] entries with [u] unvisited
    pixels of value 255, [s + 4 u] iterations empty the stack, and more
    iterations change nothing. *)
Lemma fill_loop_fuel (mask : list Z) (M : Z) (fuel k : nat) (stack : list (Z * Z))
  (visited : list Z) (contour : list (Z * Z)) :
  (length stack + 4 * count_unvisited mask visited <= fuel)%nat ->
  fill_loop mask M (fuel + k) stack visited contour = fill_loop mask M fuel stack visited contour.
Proof.
  revert stack visited contour.
  induction fuel as [|fuel IH]; intros stack visited contour Hf.
  - destruct stack; [|cbn [length] in Hf; lia]. destruct k; reflexivity.
  - destruct stack as [|[x y] stack]; [destruct k; reflexivity|].
    cbn [length] in Hf. rewrite Nat.add_succ_l. cbn [fill_loop].
    destruct (in_bounds M x y) eqn:Hb; [|apply IH; lia].
    destruct (pixel_index M x y) as [i|] eqn:Hi; [|apply IH; lia].
    destruct (is255 mask i) eqn:H255; cbn [andb]; [|apply IH; lia].
    destruct (mem i visited) eqn:Hmem; cbn [negb]; [apply IH; lia|].
    apply IH. cbn [length].
    pose proof (count_mark mask visited i (pixel_index_nonneg M x y i Hb Hi) H255 Hmem). lia.
Qed.

Lemma fill_loop_inv (mask : list Z) (M : Z) (V0 : list Z) (fuel : nat) :
  forall stack visited contour,
  incl V0 visited -> NoDup contour ->
  (forall p, In p contour ->
     on_skin mask M p /\ exists i, idx M p = Some i /\ In i visited /\ ~ In i V0) ->
  let r := fill_loop mask M fuel stack visited contour in
  incl V0 (fst r) /\ NoDup (snd r) /\
  (forall p, In p (snd r) ->
     on_skin mask M p /\ exists i, idx M p = Some i /\ In i (fst r) /\ ~ In i V0).
Proof.
  induction fuel as [|fuel IH]; intros stack visited contour Hincl Hnd Hc; [now split|].
  destruct stack as [|[x y] stack]; [now split|]. cbn [fill_loop].
  destruct (in_bounds M x y) eqn:Hb; [|now apply IH].
  destruct (pixel_index M x y) as [i|] eqn:Hi; [|now apply IH].
  destruct (is255 mask i) eqn:H255; cbn [andb]; [|now apply IH].
  destruct (mem i visited) eqn:Hmem; cbn [negb]; [now apply IH|].
  apply mem_false in Hmem.
  apply IH.
  - intros v Hv. right. now apply Hincl.
  - apply NoDup_app; [exact Hnd | constructor; [intros []|constructor] |].
    intros p Hp [<-|[]]. destruct (Hc _ Hp) as [_ [j [Hj [Hjv _]]]].
    cbn [idx] in Hj. rewrite Hi in Hj. injection Hj as <-. contradiction.
  - intros p Hp. apply in_app_or in Hp as [Hp|[<-|[]]].
    + destruct (Hc _ Hp) as [Hs [j [Hj [Hjv Hj0]]]].
      split; [exact Hs|]. exists j. repeat split; [exact Hj | now right | exact Hj0].
    + split; [split; [exact Hb | now exists i]|].
      exists i. repeat split; [exact Hi | now left |].
      intros H0. apply Hmem, Hincl, H0.
Qed.

Lemma fold_left_invariant {A B} (P : A -> Prop) (f : A -> B -> A) (l : list B) (a : A) :
  (forall a b, P a -> P (f a b)) -> P a -> P (fold_left f l a).
Proof. intros Hf; revert a; induction l as [|b l IH]; intros a Ha; [exact Ha|]. apply IH, Hf, Ha. Qed.

Lemma contours_step_inv (mask : list Z) (y : Z) st x :
  contours_inv mask st -> contours_inv mask (contours_step mask y st x).
Proof.
  destruct st as [visited contours]. unfold contours_inv, contours_step; cbn [fst snd].
  intros [Hnd [Hsz Hc]].
  destruct (pixel_index _ x y) as [i|]; [|now split].
  destruct (is255 mask i && negb (mem i visited)); [|now split].
  unfold floodFill.
  destruct (fill_loop_inv mask (Z.of_nat (length mask)) visited (fill_fuel mask)
              [(x, y)] visited [] (incl_refl _) (NoDup_nil _) (fun p (H : In p []) => match H with end))
    as [Hincl [Hnd' Hc']].
  destruct (fill_loop _ _ _ _ _ _) as [visited' contour]; cbn [fst snd] in *.
  destruct (Nat.ltb_spec 100 (length contour)).
  - rewrite concat_app; cbn [concat]; rewrite app_nil_r.
    split; [|split].
    + apply NoDup_app; [exact Hnd | exact Hnd' |].
      intros p Hp Hp'. destruct (Hc _ Hp) as [_ [j [Hj Hjv]]].
      destruct (Hc' _ Hp') as [_ [j' [Hj' [_ Hj'v]]]]. congruence.
    + apply Forall_app; split; [exact Hsz | now constructor].
    + intros p Hp. apply in_app_or in Hp as [Hp|Hp].
      * destruct (Hc _ Hp) as [Hs [j [Hj Hjv]]]. split; [exact Hs|]. exists j. split; [exact Hj|]. now apply Hincl.
      * destruct (Hc' _ Hp) as [Hs [j [Hj [Hjv _]]]]. split; [exact Hs|]. now exists j.
  - split; [exact Hnd | split; [exact Hsz|]].
    intros p Hp. destruct (Hc _ Hp) as [Hs [j [Hj Hjv]]]. split; [exact Hs|]. exists j. split; [exact Hj|]. now apply Hincl.
Qed.

Lemma findContours_inv (mask : list Z) :
  contours_inv mask (fold_left (fun st y => fold_left (contours_step mask y)
                                  (coords (Z.of_nat (length mask))) st)
                               (coords (Z.of_nat (length mask))) ([], [])).
Proof.
  apply fold_left_invariant.
  2: { split; [constructor | split; [constructor | intros p []]]. }
  intros st y H. apply fold_left_invariant; [|exact H].
  intros st' x. apply contours_step_inv.
Qed.

(** A mask without a 255 byte has no contour. *)
Lemma findContours_none (mask : list Z) :
  (forall i, is255 mask i = false) -> findContours mask = [].
Proof.
  intros H. unfold findContours.
  rewrite fold_left_fixed; [reflexivity|].
  intros y. apply fold_left_fixed. intros x. unfold contours_step.
  destruct (pixel_index _ x y); [rewrite H|]; reflexivity.
Qed.

Lemma is255_repeat0 (n : nat) (i : Z) : is255 (repeat 0 n) i = false.
Proof.
  unfold is255. destruct (nth_error (repeat 0 n) (Z.to_nat i)) eqn:E; [|reflexivity].
  apply nth_error_In, repeat_spec in E. now subst.
Qed.

(** Every image [extractImageData] returns is uniformly grey. *)
Lemma extractImageData_grey (f : frame) (img : list Z) :
  extractImageData f = Some img ->
  exists n, img = concat (map grey (repeat (128, 255) n)).
Proof.
  unfold extractImageData, extractImageData_body.
  destruct f as [[w h]|]; [|discriminate].
  destruct (_ || _); [discriminate|].
  intros E; injection E as <-.
  exists (Z.to_nat (w * h)). now rewrite map_repeat.
Qed.

Lemma classify_grey (isFingerShape : list (Z * Z) -> bool) (px : list (Z * Z)) :
  classify isFingerShape (concat (map grey px)) = None.
Proof.
  unfold classify, findFingerContour.
  rewrite rgbToHsv_grey, createSkinMask_grey, findContours_none; [reflexivity|].
  apply is255_repeat0.
Qed.

(** X1: a grey pixel ([R = G = B]) has hue and saturation 0, so
    [rgbToHsv] turns a grey image into [(0, 0, v, a)] pixels and
    [createSkinMask] marks none of them as skin. *)
Theorem grey_pixels_never_skin (px : list (Z * Z)) :
  rgbToHsv (concat (map grey px))
    = concat (map (fun '(v, a) => [0; 0; u8clamp v; u8clamp a]) px)
  /\ createSkinMask (rgbToHsv (concat (map grey px))) = repeat 0 (length px).
Proof.
  split; [apply rgbToHsv_grey|].
  rewrite rgbToHsv_grey. apply createSkinMask_grey.
Qed.

(** X2: the [while] loop of [floodFill] empties its stack within
    [4 * M + 1] iterations ([M] the mask length): letting it run longer
    changes neither the visited set nor the contour. *)
Theorem floodFill_terminates (mask : list Z) (x y : Z) (visited : list Z) (k : nat) :
  fill_loop mask (Z.of_nat (length mask)) (fill_fuel mask + k) [(x, y)] visited []
  = floodFill mask x y visited.
Proof.
  unfold floodFill. apply fill_loop_fuel.
  unfold fill_fuel. cbn [length]. pose proof (count_unvisited_le mask visited). lia.
Qed.

(** X3: the contours [findContours] returns have more than 100 points
    each, no point occurs twice (in one contour or across two), and every
    point lies inside the square on a mask pixel of value 255. *)
Theorem findContours_sound (mask : list Z) :
  let cs := findContours mask in
  NoDup (concat cs) /\ Forall (fun c => (100 < length c)%nat) cs
  /\ forall x y, In (x, y) (concat cs) ->
       in_bounds (Z.of_nat (length mask)) x y = true
       /\ exists i, pixel_index (Z.of_nat (length mask)) x y = Some i /\ is255 mask i = true.
Proof.
  cbv zeta. unfold findContours.
  destruct (findContours_inv mask) as [Hnd [Hsz Hc]].
  split; [exact Hnd | split; [exact Hsz|]].
  intros x y Hp. exact (proj1 (Hc _ Hp)).
Qed.

End DetectorFacts.

Module CameraFacts.
Import Pipeline Detector DetectorSpec DetectorFacts.

Section Camera.
Variable isFingerShape : list (Z * Z) -> bool.
Variable extractPPGSignal : list Z -> contour -> option sample.
Variable calculateConfidence : list Q -> option Z -> Q.

(** X4: with [FingerDetector]'s own classification, [processFrame] never gets
    past finger detection: it returns [null] or the "place your finger"
    result, leaves the buffer and both histories as they were, and leaves
    the detector untouched or reset. *)
Theorem camera_never_detects_finger (st : proc) (f : frame) (now : Z) (rnd : Q) :
  let r := processFrame (classify isFingerShape) extractPPGSignal calculateConfidence
                        st f now rnd in
  (snd r = None \/ snd r = Some not_detected_result)
  /\ signalBuffer (fst r) = signalBuffer st
  /\ heartRateHistory (fst r) = heartRateHistory st
  /\ bpHistory (fst r) = bpHistory st
  /\ (fingerDetector (fst r) = fingerDetector st \/ fingerDetector (fst r) = Finger.fd_init).
Proof.
  intros r. unfold r, processFrame.
  destruct (Z.ltb_spec (now - lastProcessTime st) processingInterval).
  { cbn [fst snd]. tauto. }
  destruct (extractImageData f) as [img|] eqn:E.
  2: { cbn [fst snd set_lastProcessTime signalBuffer heartRateHistory bpHistory fingerDetector].
       tauto. }
  destruct (extractImageData_grey f img E) as [n ->].
  rewrite classify_grey. cbn. tauto.
Qed.

End Camera.

End CameraFacts.

Module RealFacts.
Import Estimator EstimatorFacts RealSpec.

Lemma clamp_bounds (lo hi : Z) (x : Q) :
  (lo <= hi)%Z ->
  inject_Z lo <= Qmax (inject_Z lo) (Qmin (inject_Z hi) x) <= inject_Z hi.
Proof.
  intros H. rewrite Zle_Qle in H.
  destruct (Q.max_spec (inject_Z lo) (Qmin (inject_Z hi) x)) as [[H1 H2] | [H1 H2]];
    destruct (Q.min_spec (inject_Z hi) x) as [[H3 H4] | [H3 H4]]; rewrite H2; try rewrite H4; lra.
Qed.

Lemma age_band_cases (a : Q) :
  age_band a = (100, 160)%Z \/ age_band a = (80, 140)%Z \/ age_band a = (70, 120)%Z
  \/ age_band a = (65, 110)%Z \/ age_band a = (60, 100)%Z.
Proof.
  unfold age_band.
  destruct (qle a 1); [tauto|]. destruct (qle a 3); [tauto|].
  destruct (qle a 5); [tauto|]. destruct (qle a 7); tauto.
Qed.

Lemma heart_rate_band (childAge : Q) (signal timestamps : list Q) (hr : Z) :
  calculateHeartRate childAge signal timestamps = Some hr ->
  (fst (age_band childAge) <= hr <= snd (age_band childAge))%Z.
Proof.
  unfold calculateHeartRate.
  destruct (Nat.ltb _ 2); [discriminate|].
  intros E; injection E as <-. unfold applyAgeConstraints.
  destruct (age_band_cases childAge) as [E|[E|[E|[E|E]]]]; rewrite E; cbn [fst snd];
    apply js_round_bounds; apply clamp_bounds; lia.
Qed.

Lemma floor_unique (q : Q) (k : Z) : inject_Z k <= q -> q < inject_Z (k + 1) -> Qfloor q = k.
Proof.
  intros H1 H2. apply Z.le_antisymm.
  - assert (inject_Z (Qfloor q) < inject_Z (k + 1)) as H
      by (apply Qle_lt_trans with q; [apply Qfloor_le | exact H2]).
    rewrite <- Zlt_Qlt in H. lia.
  - rewrite <- (Qfloor_Z k). apply Qfloor_resp_le. exact H1.
Qed.

Lemma js_round_shift (x : Q) (z : Z) : js_round (x + inject_Z z) = (js_round x + z)%Z.
Proof.
  unfold js_round. apply floor_unique.
  - rewrite inject_Z_plus. pose proof (Qfloor_le (x + (1 # 2))). lra.
  - rewrite !inject_Z_plus. pose proof (Qlt_floor (x + (1 # 2))).
    rewrite inject_Z_plus in H. lra.
Qed.

Lemma js_round_mono (x y : Q) : x <= y -> (js_round x <= js_round y)%Z.
Proof. intros H. unfold js_round. apply Qfloor_resp_le. lra. Qed.

Lemma js_round_near (x : Q) : x - (1 # 2) < inject_Z (js_round x) <= x + (1 # 2).
Proof.
  unfold js_round. pose proof (Qfloor_le (x + (1 # 2))).
  pose proof (Qlt_floor (x + (1 # 2))). rewrite inject_Z_plus in H0.
  unfold inject_Z at 2 in H0. split; lra.
Qed.

Lemma minQ_fold (r : list Q) : forall x,
  fold_left Qmin r x <= x /\ forall v, In v r -> fold_left Qmin r x <= v.
Proof.
  induction r as [|a r IH]; intros x; cbn [fold_left]; [split; [lra | intros v []]|].
  destruct (IH (Qmin x a)) as [H1 H2].
  pose proof (Q.le_min_l x a). pose proof (Q.le_min_r x a).
  split; [lra|]. intros v [<-|Hv]; [lra | apply H2, Hv].
Qed.

Lemma maxQ_fold (r : list Q) : forall x,
  x <= fold_left Qmax r x /\ forall v, In v r -> v <= fold_left Qmax r x.
Proof.
  induction r as [|a r IH]; intros x; cbn [fold_left]; [split; [lra | intros v []]|].
  destruct (IH (Qmax x a)) as [H1 H2].
  pose proof (Q.le_max_l x a). pose proof (Q.le_max_r x a).
  split; [lra|]. intros v [<-|Hv]; [lra | apply H2, Hv].
Qed.

Lemma minQ_maxQ_bounds (l : list Q) (v : Q) : In v l -> minQ l <= v /\ v <= maxQ l.
Proof.
  destruct l as [|x r]; [intros []|]. cbn [minQ maxQ].
  destruct (minQ_fold r x) as [H1 H2]. destruct (maxQ_fold r x) as [H3 H4].
  intros [<-|Hv]; [split; assumption | split; [apply H2 | apply H4]; exact Hv].
Qed.

Lemma normalizeSignal_range (signal : list Q) :
  length (normalizeSignal signal) = length signal
  /\ Forall (fun v => 0 <= v <= 1) (normalizeSignal signal).
Proof.
  unfold normalizeSignal. cbv zeta.
  destruct (Qeq_bool (maxQ signal - minQ signal) 0) eqn:E.
  - rewrite length_map. split; [reflexivity|].
    apply Forall_map, Forall_forall. intros _ _. split; unfold Qle; simpl; lia.
  - rewrite length_map. split; [reflexivity|].
    apply Forall_map, Forall_forall. intros v Hv.
    destruct (minQ_maxQ_bounds signal v Hv) as [Hlo Hhi].
    assert (Hne : ~ maxQ signal - minQ signal == 0)
      by (intros H; apply Qeq_bool_iff in H; congruence).
    assert (Hpos : 0 < maxQ signal - minQ signal) by lra.
    split.
    + apply Qle_shift_div_l; [exact Hpos | lra].
    + apply Qle_shift_div_r; [exact Hpos | lra].
Qed.

Lemma qlt_true (a b : Q) : qlt a b = true -> a < b.
Proof. destruct (qlt_cases a b) as [[_ H]|[E _]]; [intros; exact H | congruence]. Qed.

Lemma qle_true (a b : Q) : qle a b = true -> a <= b.
Proof. destruct (qle_cases a b) as [[_ H]|[E _]]; [intros; exact H | congruence]. Qed.

Lemma sorted_snoc {A} (R : A -> A -> Prop) (l : list A) (x : A) :
  Sorted R l -> (forall y, In y l -> R y x) -> Sorted R (l ++ [x]).
Proof.
  induction l as [|a l IH]; intros Hs Hx; [constructor; constructor|].
  inversion Hs as [|? ? Hs' Hd]; subst. cbn [app]. constructor.
  - apply IH; [exact Hs'|]. intros y Hy. apply Hx. now right.
  - destruct l as [|b l]; cbn [app].
    + constructor. apply Hx. now left.
    + inversion Hd; subst. now constructor.
Qed.

Lemma intervals_snoc (l : list Q) (a b : Q) :
  intervals (l ++ [a; b]) = intervals (l ++ [a]) ++ [b - a].
Proof.
  induction l as [|x [|y l] IH]; [reflexivity | reflexivity|].
  assert (Hc : forall r, intervals (x :: y :: r) = (y - x) :: intervals (y :: r))
    by reflexivity.
  cbn [app] in IH |- *. rewrite !Hc, IH. reflexivity.
Qed.

Lemma find_peaks_step_inv (signal timestamps : list Q) (s : nat) (peaks : list peak) :
  (1 <= s)%nat -> (s + 2 <= length signal)%nat ->
  peaks_inv signal timestamps s peaks ->
  peaks_inv signal timestamps (S s) (find_peaks_step signal timestamps peaks s).
Proof.
  intros Hs1 Hs2 [Hsort [Hint [Hok Hlt]]].
  assert (Hkeep : peaks_inv signal timestamps (S s) peaks).
  { split; [exact Hsort | split; [exact Hint | split; [exact Hok|]]].
    eapply Forall_impl; [|exact Hlt]. intros p Hp; cbn beta in *; lia. }
  unfold find_peaks_step. cbv zeta.
  destruct (qlt (at_ signal (s - 1)) (at_ signal s)) eqn:E1; [|exact Hkeep].
  destruct (qlt (at_ signal (s + 1)) (at_ signal s)) eqn:E2; [|exact Hkeep].
  destruct (qlt minPeakHeight (at_ signal s)) eqn:E3; [|exact Hkeep].
  cbn [andb].
  apply qlt_true in E1, E2, E3.
  set (np := mk_peak s (at_ timestamps s) (at_ signal s)).
  assert (Hnp : peak_ok signal timestamps np)
    by (unfold peak_ok, np; cbn [pk_index pk_value pk_timestamp]; repeat split; auto; lia).
  assert (Hall : Forall (fun p => (pk_index p < S s)%nat) (peaks ++ [np])).
  { apply Forall_app; split.
    - eapply Forall_impl; [|exact Hlt]. intros p Hp; cbn beta in *; lia.
    - constructor; [cbn; lia | constructor]. }
  assert (Hsort' : Sorted lt (map pk_index (peaks ++ [np]))).
  { rewrite map_app. apply sorted_snoc; [exact Hsort|].
    intros y Hy. apply in_map_iff in Hy as [p [<- Hp]].
    rewrite Forall_forall in Hlt. apply Hlt, Hp. }
  assert (Hok' : Forall (peak_ok signal timestamps) (peaks ++ [np]))
    by (apply Forall_app; split; [exact Hok | constructor; [exact Hnp | constructor]]).
  destruct (rev peaks) as [|lastp rest] eqn:R.
  - assert (peaks = []) as -> by (apply (f_equal (@rev peak)) in R; now rewrite rev_involutive in R).
    split; [exact Hsort' | split; [constructor | split; [exact Hok' | exact Hall]]].
  - destruct (qle minPeakDistance (at_ timestamps s - pk_timestamp lastp)) eqn:E4; [|exact Hkeep].
    apply qle_true in E4.
    split; [exact Hsort' | split; [| split; [exact Hok' | exact Hall]]].
    assert (Hp : peaks = rev rest ++ [lastp])
      by (rewrite <- (rev_involutive peaks), R; reflexivity).
    rewrite Hp in Hint |- *. rewrite <- app_assoc. cbn [app].
    rewrite !map_app. cbn [map].
    change ([pk_timestamp lastp; pk_timestamp np]) with ([pk_timestamp lastp] ++ [pk_timestamp np]).
    rewrite map_app in Hint. cbn [map] in Hint.
    cbn [app]. rewrite intervals_snoc. apply Forall_app. split; [exact Hint|].
    constructor; [exact E4 | constructor].
Qed.

Lemma find_peaks_fold (signal timestamps : list Q) (k : nat) :
  forall s peaks, (1 <= s)%nat -> (s + k + 1 <= length signal)%nat ->
  peaks_inv signal timestamps s peaks ->
  peaks_inv signal timestamps (s + k) (fold_left (find_peaks_step signal timestamps) (seq s k) peaks).
Proof.
  induction k as [|k IH]; intros s peaks H1 H2 Hinv.
  - now rewrite Nat.add_0_r.
  - cbn [seq fold_left]. replace (s + S k)%nat with (S s + k)%nat by lia.
    apply IH; [lia | lia|]. apply find_peaks_step_inv; [lia | lia | exact Hinv].
Qed.

Lemma findPeaks_inv (signal timestamps : list Q) :
  peaks_inv signal timestamps (length signal - 1) (findPeaks signal timestamps).
Proof.
  unfold findPeaks.
  destruct (Nat.le_gt_cases 2 (length signal)).
  - replace (length signal - 1)%nat with (1 + (length signal - 2))%nat by lia.
    apply find_peaks_fold; [lia | lia|].
    split; [constructor | split; [constructor | split; constructor]].
  - replace (length signal - 2)%nat with 0%nat by lia. cbn.
    split; [constructor | split; [constructor | split; constructor]].
Qed.

(** The gap between the two values [calculateBloodPressure] returns. *)
Lemma pulse_pressure_bounds (childAge temperature rnd : Q) (signal : list Q)
  (hr systolic diastolic : Z) :
  calculateBloodPressure childAge temperature rnd signal (Some hr) = Some (systolic, diastolic) ->
  0 <= rnd <= 1 ->
  (20 <= systolic - diastolic <= 57)%Z.
Proof.
  intros Hbp Hr. unfold calculateBloodPressure in Hbp.
  destruct (hr =? 0)%Z; [discriminate|].
  injection Hbp as Hs Hd.
  set (sys0 := calculateSystolicBP childAge (extractPulseWaveFeatures signal) hr) in *.
  pose proof (systolic_range childAge (extractPulseWaveFeatures signal) hr) as Hsys.
  fold sys0 in Hsys.
  unfold calculateDiastolicBP, applyTemperatureCompensation in *.
  set (ratio := (65 # 100) + (rnd - (1 # 2)) * (1 # 10)) in *.
  set (dia0 := js_round (sys0 * ratio)) in *.
  set (c := (temperature - 37) * 2) in *.
  assert (Hrat : 6 # 10 <= ratio <= 7 # 10) by (unfold ratio; lra).
  pose proof (js_round_near (sys0 * ratio)) as Hn. fold dia0 in Hn.
  assert (H1 : sys0 * ratio <= sys0 * (7 # 10)) by (apply Qmult_le_l; lra).
  assert (H2 : sys0 * (6 # 10) <= sys0 * ratio) by (apply Qmult_le_l; lra).
  split.
  - assert (Hm : inject_Z dia0 + c + inject_Z 20 <= sys0 + c) by (unfold inject_Z at 2; lra).
    apply js_round_mono in Hm. rewrite js_round_shift in Hm. lia.
  - assert (Hm : sys0 + c <= inject_Z dia0 + c + inject_Z 57) by (unfold inject_Z at 2; lra).
    apply js_round_mono in Hm. rewrite js_round_shift in Hm. lia.
Qed.

Lemma applySignalProcessing_range (signal : list Q) :
  length (applySignalProcessing signal) = length signal
  /\ Forall (fun v => 0 <= v <= 1) (applySignalProcessing signal).
Proof.
  unfold applySignalProcessing. cbv zeta.
  destruct (normalizeSignal_range
              (savitzkyGolayFilter (bandpassFilter (map (fun v => v - meanQ signal) signal))))
    as [Hl Hr].
  split; [|exact Hr]. rewrite Hl.
  unfold savitzkyGolayFilter, bandpassFilter. cbv zeta.
  now rewrite !length_map, !length_seq.
Qed.

(** X5: a heart rate [calculateHeartRate] returns lies in the age band of
    [applyAgeConstraints] for [childAge] (e.g. [[70, 120]] at age 5). *)
Theorem calculateHeartRate_in_age_band (childAge : Q) (signal timestamps : list Q) (hr : Z) :
  calculateHeartRate childAge signal timestamps = Some hr ->
  (fst (age_band childAge) <= hr <= snd (age_band childAge))%Z.
Proof. apply heart_rate_band. Qed.

Lemma calculateHeartRate_in_age_band_witness :
  calculateHeartRate 5 Fixtures.pulse_signal Fixtures.pulse_timestamps = Some 100%Z
  /\ (70 <= 100 <= 120)%Z.
Proof.
  assert (H : calculateHeartRate 5 Fixtures.pulse_signal Fixtures.pulse_timestamps = Some 100%Z)
    by (vm_compute; reflexivity).
  split; [exact H|]. exact (calculateHeartRate_in_age_band _ _ _ _ H).
Defined.

(** X6: with [Math.random()] in [[0, 1]], the systolic value
    [calculateBloodPressure] returns exceeds the diastolic one by at least
    20 and at most 57 mmHg, at any temperature. *)
Theorem blood_pressure_pulse_pressure (childAge temperature rnd : Q) (signal : list Q)
  (hr systolic diastolic : Z) :
  calculateBloodPressure childAge temperature rnd signal (Some hr) = Some (systolic, diastolic) ->
  0 <= rnd <= 1 ->
  (20 <= systolic - diastolic <= 57)%Z.
Proof. apply pulse_pressure_bounds. Qed.

Lemma blood_pressure_pulse_pressure_witness :
  calculateBloodPressure 5 37 0 [0; 1] (Some 100%Z) = Some (100%Z, 60%Z)
  /\ (20 <= 100 - 60 <= 57)%Z.
Proof.
  assert (H : calculateBloodPressure 5 37 0 [0; 1] (Some 100%Z) = Some (100%Z, 60%Z))
    by (vm_compute; reflexivity).
  split; [exact H|].
  apply (blood_pressure_pulse_pressure 5 37 0 [0; 1] 100 100 60 H). lra.
Defined.

(** X7: on a signal of at least 4 samples, [applySignalProcessing]
    returns one value per input sample, each in [[0, 1]]
    ([normalizeSignal] maps a constant window to 0.5).  Shorter signals
    are left out: there the [bandpassFilter] loop writes [filtered[0..3]]
    and returns 4 entries, some [undefined]. *)
Theorem applySignalProcessing_normalized (signal : list Q) :
  (4 <= length signal)%nat ->
  length (applySignalProcessing signal) = length signal
  /\ Forall (fun v => 0 <= v <= 1) (applySignalProcessing signal)
  /\ (forall c, normalizeSignal (repeat c (length signal)) = repeat (1 # 2) (length signal)).
Proof.
  intros _.
  split; [apply applySignalProcessing_range|]. split; [apply applySignalProcessing_range|].
  intros c. unfold normalizeSignal. cbv zeta.
  destruct (length signal) as [|n]; [reflexivity|].
  cbn [repeat minQ maxQ].
  assert (Hmin : forall k, fold_left Qmin (repeat c k) c = c).
  { induction k as [|k IH]; [reflexivity|]. cbn [repeat fold_left].
    rewrite DetectorFacts.Qmin_same. exact IH. }
  assert (Hmax : forall k, fold_left Qmax (repeat c k) c = c).
  { induction k as [|k IH]; [reflexivity|]. cbn [repeat fold_left].
    rewrite DetectorFacts.Qmax_same. exact IH. }
  rewrite Hmin, Hmax.
  assert (Qeq_bool (c - c) 0 = true) as -> by (apply Qeq_bool_iff; ring).
  cbn [map]. now rewrite map_repeat.
Qed.

Lemma applySignalProcessing_normalized_witness :
  (4 <= length [0; 1; 0; 0; 2; 0])%nat
  /\ length (applySignalProcessing [0; 1; 0; 0; 2; 0]) = 6%nat
  /\ Forall (fun v => 0 <= v <= 1) (applySignalProcessing [0; 1; 0; 0; 2; 0])
  /\ (forall c, normalizeSignal (repeat c 6) = repeat (1 # 2) 6).
Proof.
  assert (H4 : (4 <= length [0; 1; 0; 0; 2; 0])%nat) by (cbn; lia).
  split; [exact H4|]. exact (applySignalProcessing_normalized [0; 1; 0; 0; 2; 0] H4).
Defined.

(** X8: the peaks [findPeaks] returns come in strictly increasing index
    order, at indices [1 .. length - 2]; each is a strict local maximum of
    the signal above [minPeakHeight = 0.6], recorded with its own value and
    timestamp; consecutive peaks are at least [minPeakDistance = 0.3] s
    apart. *)
Theorem findPeaks_sound (signal timestamps : list Q) :
  let peaks := findPeaks signal timestamps in
  Sorted lt (map pk_index peaks)
  /\ Forall (fun d => minPeakDistance <= d) (intervals (map pk_timestamp peaks))
  /\ Forall (fun p =>
        (1 <= pk_index p /\ pk_index p + 2 <= length signal)%nat
        /\ pk_value p = at_ signal (pk_index p)
        /\ pk_timestamp p = at_ timestamps (pk_index p)
        /\ at_ signal (pk_index p - 1) < pk_value p
        /\ at_ signal (pk_index p + 1) < pk_value p
        /\ minPeakHeight < pk_value p) peaks.
Proof.
  destruct (findPeaks_inv signal timestamps) as [H1 [H2 [H3 _]]].
  split; [exact H1 | split; [exact H2 | exact H3]].
Qed.

(** C7: [calculateVitalSigns] passes [calculateBloodPressure] the heart
    rate [calculateHeartRate] returns for the same filtered signal.  For
    any configured temperature in [[35, 42]] (the range [setTemperature]
    clamps to), whenever the estimator produces a reading, the systolic
    estimate is clamped to [[70, 140]], the compensation
    [2 * (temperature - 37)] mmHg is added to both systolic and diastolic
    before rounding, and the returned systolic value lies in [[70, 140]]. *)
Theorem blood_pressure_systolic_in_band (childAge temperature rnd : Q)
  (filteredSignal timestamps : list Q) (systolic diastolic : Z) :
  35 <= temperature <= 42 ->
  calculateBloodPressure childAge temperature rnd filteredSignal
    (calculateHeartRate childAge filteredSignal timestamps) = Some (systolic, diastolic) ->
  exists hr,
    calculateHeartRate childAge filteredSignal timestamps = Some hr
    /\ let sys0 := calculateSystolicBP childAge (extractPulseWaveFeatures filteredSignal) hr in
       70 <= sys0 <= 140
       /\ systolic = js_round (applyTemperatureCompensation temperature sys0)
       /\ diastolic = js_round (applyTemperatureCompensation temperature
                                   (calculateDiastolicBP rnd sys0))
       /\ (70 <= systolic <= 140)%Z.
Proof.
  intros HT Hbp.
  destruct (calculateHeartRate childAge filteredSignal timestamps) as [hr|] eqn:Ehr;
    [|discriminate].
  exists hr. split; [reflexivity|].
  destruct (blood_pressure_compensated_range childAge temperature rnd filteredSignal
              hr systolic diastolic Hbp HT) as [H0 [Hs [Hd [_ Hband]]]].
  split; [exact H0|]. split; [exact Hs|]. split; [exact Hd|].
  apply Hband, (heart_rate_band childAge filteredSignal timestamps hr Ehr).
Qed.

(** Witness of C7 at age 5 and 42 C: two peaks 0.6 s apart give 100 BPM
    and the reading 110/75. *)
Lemma blood_pressure_systolic_in_band_witness :
  calculateBloodPressure 5 42 (1 # 2) [0; 1; 0; 0; 1; 0]
    (calculateHeartRate 5 [0; 1; 0; 0; 1; 0] [0; 1 # 10; 2 # 10; 3 # 10; 7 # 10; 8 # 10])
  = Some (110%Z, 75%Z)
  /\ (70 <= 110 <= 140)%Z.
Proof.
  assert (Hbp : calculateBloodPressure 5 42 (1 # 2) [0; 1; 0; 0; 1; 0]
                  (calculateHeartRate 5 [0; 1; 0; 0; 1; 0]
                                      [0; 1 # 10; 2 # 10; 3 # 10; 7 # 10; 8 # 10])
                = Some (110%Z, 75%Z)) by (vm_compute; reflexivity).
  split; [exact Hbp|].
  destruct (blood_pressure_systolic_in_band 5 42 (1 # 2) [0; 1; 0; 0; 1; 0]
              [0; 1 # 10; 2 # 10; 3 # 10; 7 # 10; 8 # 10] 110 75) as [hr [_ [_ [_ [_ H]]]]].
  - split; unfold Qle; simpl; lia.
  - exact Hbp.
  - exact H.
Defined.

End RealFacts.

Module ProcessorFacts.
Import Estimator Pipeline RealFacts ProcessorSpec.

Lemma add_to_buffer_length {A} (m : nat) (buf : list A) (x : A) :
  (length buf <= m)%nat -> (length (SignalBuffer.add_to_buffer m buf x) <= m)%nat.
Proof.
  unfold SignalBuffer.add_to_buffer. rewrite length_app. cbn [length].
  destruct (Nat.ltb_spec m (length buf + 1)).
  - destruct buf as [|b buf]; cbn [app tl length] in *; [lia|]. rewrite length_app. cbn [length]. lia.
  - rewrite length_app. cbn [length]. lia.
Qed.

Lemma add_to_buffer_Forall {A} (P : A -> Prop) (m : nat) (buf : list A) (x : A) :
  Forall P buf -> P x -> Forall P (SignalBuffer.add_to_buffer m buf x).
Proof.
  intros Hb Hx. unfold SignalBuffer.add_to_buffer.
  assert (H : Forall P (buf ++ [x])) by (apply Forall_app; split; [exact Hb | constructor; [exact Hx | constructor]]).
  destruct (Nat.ltb m (length (buf ++ [x]))); [|exact H].
  destruct (buf ++ [x]); [constructor|]. cbn [tl]. inversion H; assumption.
Qed.

Section Processor.
Variable findFingerContour : list Z -> option contour.
Variable extractPPGSignal : list Z -> contour -> option sample.
Variable calculateConfidence : list Q -> option Z -> Q.

(** A property of the processor state that [processFrame] keeps as long
    as [calculateVitalSigns] keeps it, and that does not depend on the
    clock, the detector or the buffer contents beyond their length. *)
Lemma processFrame_keeps (P : proc -> Prop) (st : proc) (f : frame) (now : Z) (rnd : Q) :
  (forall st t, P st -> P (set_lastProcessTime st t)) ->
  (forall st d, P st -> P (set_detector st d)) ->
  (forall st s, P st -> P (addToBuffer st s)) ->
  (forall st, P st -> P (fst (calculateVitalSigns calculateConfidence st rnd))) ->
  P st ->
  P (fst (processFrame findFingerContour extractPPGSignal calculateConfidence st f now rnd)).
Proof.
  intros Ht Hd Ha Hv Hst. unfold processFrame.
  destruct (now - lastProcessTime st <? processingInterval)%Z; [exact Hst|].
  destruct (extractImageData f) as [img|]; [|apply Ht, Hst].
  destruct (Finger.detect_finger _ _) as [d' det].
  destruct (negb (Finger.res_fingerDetected det)); [apply Hd, Ht, Hst|].
  destruct (match Finger.res_contour det with Some c => extractPPGSignal img c | None => None end)
    as [s|]; [|apply Hd, Ht, Hst].
  destruct (Nat.leb minValidSamples _).
  - pose proof (Hv (addToBuffer (set_detector (set_lastProcessTime st now) d') s)
                   (Ha _ s (Hd _ d' (Ht _ now Hst)))) as H.
    destruct (calculateVitalSigns _ _ _) as [st4 vs]. exact H.
  - apply Ha, Hd, Ht, Hst.
Qed.

Lemma calculateVitalSigns_bounded (st : proc) (rnd : Q) :
  bounded st -> bounded (fst (calculateVitalSigns calculateConfidence st rnd)).
Proof.
  intros [Hb [Hh Hp]]. unfold calculateVitalSigns.
  destruct (Nat.ltb _ minValidSamples); [now split|].
  cbv zeta. cbn [fst set_histories signalBuffer heartRateHistory bpHistory].
  split; [exact Hb|]. split.
  - destruct (truthy_hr _); [apply add_to_buffer_length|]; exact Hh.
  - destruct (calculateBloodPressure _ _ _ _ _); [apply add_to_buffer_length|]; exact Hp.
Qed.

Lemma calculateVitalSigns_plausible (st : proc) (rnd : Q) :
  0 <= rnd <= 1 ->
  plausible st -> plausible (fst (calculateVitalSigns calculateConfidence st rnd)).
Proof.
  intros Hr [Hh Hp]. unfold calculateVitalSigns.
  destruct (Nat.ltb _ minValidSamples); [now split|].
  cbv zeta. cbn [fst set_histories signalBuffer heartRateHistory bpHistory].
  set (sig := applySignalProcessing (map s_value (signalBuffer st))).
  set (hr := calculateHeartRate (childAge st) sig (map s_timestamp (signalBuffer st))).
  assert (Hband : forall h, hr = Some h -> (60 <= h <= 160)%Z).
  { intros h E. apply heart_rate_band in E.
    destruct (age_band_cases (childAge st)) as [B|[B|[B|[B|B]]]]; rewrite B in E; cbn in E; lia. }
  split.
  - unfold updateHeartRateHistory.
    destruct (truthy_hr hr) as [h|] eqn:T; [|exact Hh].
    apply add_to_buffer_Forall; [exact Hh|]. apply Hband.
    unfold truthy_hr in T. destruct hr as [h'|]; [|discriminate].
    destruct (h' =? 0)%Z; [discriminate|]. congruence.
  - unfold updateBPHistory.
    destruct (calculateBloodPressure _ _ _ _ hr) as [[sy di]|] eqn:B; [|exact Hp].
    apply add_to_buffer_Forall; [exact Hp|]. cbn [fst snd].
    destruct hr as [h|]; [|discriminate].
    exact (pulse_pressure_bounds _ _ _ _ h sy di B Hr).
Qed.

(** X9: [processFrame] never lets the signal buffer grow past
    [maxBufferSize = 300] samples, the heart-rate history past
    [maxHistorySize = 10] or the blood-pressure history past
    [maxBPHistorySize = 5] entries. *)
Theorem processFrame_bounded (st : proc) (f : frame) (now : Z) (rnd : Q) :
  (length (signalBuffer st) <= 300)%nat ->
  (length (heartRateHistory st) <= 10)%nat ->
  (length (bpHistory st) <= 5)%nat ->
  let st' := fst (processFrame findFingerContour extractPPGSignal calculateConfidence st f now rnd) in
  (length (signalBuffer st') <= 300)%nat
  /\ (length (heartRateHistory st') <= 10)%nat
  /\ (length (bpHistory st') <= 5)%nat.
Proof.
  intros Hb Hh Hp.
  cbv zeta. apply (processFrame_keeps bounded st f now rnd);
    [| | | intros st0; apply calculateVitalSigns_bounded | now split].
  - intros st0 t H. exact H.
  - intros st0 d H. exact H.
  - intros st0 s [H1 H2]. split; [apply add_to_buffer_length, H1 | exact H2].
Qed.

(** X10: with [Math.random()] in [[0, 1]], every heart rate [processFrame]
    adds to [heartRateHistory] lies in [[60, 160]] (the union of the age
    bands), and every reading it adds to [bpHistory] has a systolic value
    20 to 57 mmHg above the diastolic one. *)
Theorem processFrame_history_values (st : proc) (f : frame) (now : Z) (rnd : Q) :
  0 <= rnd <= 1 ->
  Forall (fun h => (60 <= h <= 160)%Z) (heartRateHistory st) ->
  Forall (fun bp => (20 <= fst bp - snd bp <= 57)%Z) (bpHistory st) ->
  let st' := fst (processFrame findFingerContour extractPPGSignal calculateConfidence st f now rnd) in
  Forall (fun h => (60 <= h <= 160)%Z) (heartRateHistory st')
  /\ Forall (fun bp => (20 <= fst bp - snd bp <= 57)%Z) (bpHistory st').
Proof.
  intros Hr Hh Hp.
  cbv zeta. apply (processFrame_keeps plausible st f now rnd);
    [| | | intros st0; apply calculateVitalSigns_plausible, Hr | now split].
  - intros st0 t H. exact H.
  - intros st0 d H. exact H.
  - intros st0 s H. exact H.
Qed.

End Processor.

Lemma calculateBloodPressure_some (childAge temperature rnd : Q) (signal : list Q) (hr : Z) :
  hr <> 0%Z -> exists bp, calculateBloodPressure childAge temperature rnd signal (Some hr) = Some bp.
Proof.
  intros H. unfold calculateBloodPressure.
  destruct (Z.eqb_spec hr 0); [contradiction|]. eexists; reflexivity.
Qed.

(** With at least [minValidSamples] samples and a non-zero estimate [h],
    [calculateVitalSigns] keeps the buffer, pushes [h] onto the heart-rate
    history and a reading onto the blood-pressure history. *)
Lemma calculateVitalSigns_push (calculateConfidence : list Q -> option Z -> Q) (st : proc) (rnd : Q) (h : Z) :
  (minValidSamples <= length (signalBuffer st))%nat ->
  calculateHeartRate (childAge st) (applySignalProcessing (map s_value (signalBuffer st)))
                     (map s_timestamp (signalBuffer st)) = Some h ->
  h <> 0%Z ->
  let st' := fst (calculateVitalSigns calculateConfidence st rnd) in
  signalBuffer st' = signalBuffer st
  /\ heartRateHistory st' = updateHeartRateHistory (heartRateHistory st) h
  /\ exists bp, bpHistory st' = updateBPHistory (bpHistory st) bp.
Proof.
  intros Hlen HR Hh. cbv zeta. unfold calculateVitalSigns.
  replace (Nat.ltb (length (signalBuffer st)) minValidSamples) with false
    by (symmetry; apply Nat.ltb_ge; exact Hlen).
  cbv zeta. rewrite HR.
  destruct (calculateBloodPressure_some (childAge st) (temperature st) rnd
              (applySignalProcessing (map s_value (signalBuffer st))) h Hh) as [bp Ebp].
  rewrite Ebp. cbn [fst set_histories signalBuffer heartRateHistory bpHistory].
  unfold truthy_hr. destruct (Z.eqb_spec h 0); [contradiction|].
  split; [reflexivity|]. split; [reflexivity|]. exists bp; reflexivity.
Qed.

(** One accepted frame on the full processor [proc_full]: the buffer drops
    its oldest sample, the estimate 100 BPM drops the oldest heart rate
    and the new reading drops the oldest blood-pressure entry. *)
Lemma processFrame_full_run (rnd : Q) :
  let st' := fst (processFrame Fixtures.some_contour (Fixtures.const_sample Fixtures.sample_next)
                               Fixtures.zero_confidence Fixtures.proc_full (Some (1, 1)%Z) 1000 rnd) in
  signalBuffer st' = tl (signalBuffer Fixtures.proc_full) ++ [Fixtures.sample_next]
  /\ heartRateHistory st' = tl (heartRateHistory Fixtures.proc_full) ++ [100%Z]
  /\ exists bp, bpHistory st' = tl (bpHistory Fixtures.proc_full) ++ [bp].
Proof.
  cbv zeta.
  rewrite (PipelineFacts.processFrame_full_branch Fixtures.some_contour
             (Fixtures.const_sample Fixtures.sample_next) Fixtures.zero_confidence
             Fixtures.proc_full (Some (1, 1)%Z) 1000 rnd [128; 128; 128; 255]%Z
             [(0, 0)%Z] Fixtures.sample_next);
    [| unfold processingInterval; simpl; lia | reflexivity | reflexivity | reflexivity
     | reflexivity | apply Nat.leb_le; vm_compute; reflexivity].
  cbv zeta.
  pose proof (calculateVitalSigns_push Fixtures.zero_confidence
    (addToBuffer (set_detector (set_lastProcessTime Fixtures.proc_full 1000)
                    (fst (Finger.detect_finger (Some [(0, 0)%Z]) (fingerDetector Fixtures.proc_full))))
                 Fixtures.sample_next) rnd 100
    ltac:(apply Nat.leb_le; vm_compute; reflexivity)
    ltac:(vm_compute; reflexivity) ltac:(discriminate)) as P.
  cbv zeta in P.
  destruct (calculateVitalSigns Fixtures.zero_confidence _ rnd) as [st' v].
  cbn [fst] in *. destruct P as [A [B [bp C]]].
  rewrite A, B, C.
  split; [vm_compute; reflexivity|]. split; [vm_compute; reflexivity|].
  exists bp. vm_compute. reflexivity.
Qed.

(** A run of [processFrame] on the full processor [proc_full] with a
    detector that finds a finger: the buffer and both histories are at
    their caps, and the frame adds a sample, a heart rate and a reading. *)
Lemma processFrame_bounded_witness :
  (length (signalBuffer Fixtures.proc_full) <= 300)%nat
  /\ (length (heartRateHistory Fixtures.proc_full) <= 10)%nat
  /\ (length (bpHistory Fixtures.proc_full) <= 5)%nat
  /\ (let st' := fst (processFrame Fixtures.some_contour (Fixtures.const_sample Fixtures.sample_next)
                                   Fixtures.zero_confidence Fixtures.proc_full (Some (1, 1)%Z) 1000 (1 # 2)) in
      (length (signalBuffer st') <= 300)%nat
      /\ (length (heartRateHistory st') <= 10)%nat
      /\ (length (bpHistory st') <= 5)%nat)
  /\ (let st' := fst (processFrame Fixtures.some_contour (Fixtures.const_sample Fixtures.sample_next)
                                   Fixtures.zero_confidence Fixtures.proc_full (Some (1, 1)%Z) 1000 (1 # 2)) in
      signalBuffer st' = tl (signalBuffer Fixtures.proc_full) ++ [Fixtures.sample_next]
      /\ heartRateHistory st' = tl (heartRateHistory Fixtures.proc_full) ++ [100%Z]
      /\ exists bp, bpHistory st' = tl (bpHistory Fixtures.proc_full) ++ [bp]).
Proof.
  assert (H1 : (length (signalBuffer Fixtures.proc_full) <= 300)%nat)
    by (apply Nat.leb_le; vm_compute; reflexivity).
  assert (H2 : (length (heartRateHistory Fixtures.proc_full) <= 10)%nat)
    by (apply Nat.leb_le; vm_compute; reflexivity).
  assert (H3 : (length (bpHistory Fixtures.proc_full) <= 5)%nat)
    by (apply Nat.leb_le; vm_compute; reflexivity).
  split; [exact H1|]. split; [exact H2|]. split; [exact H3|]. split.
  - exact (processFrame_bounded Fixtures.some_contour (Fixtures.const_sample Fixtures.sample_next)
             Fixtures.zero_confidence Fixtures.proc_full (Some (1, 1)%Z) 1000 (1 # 2) H1 H2 H3).
  - apply processFrame_full_run.
Defined.

(** The same run with [Math.random()] drawing 0.5: the histories of
    [proc_full] satisfy the value invariants, and the frame adds the heart
    rate 100 and a new reading. *)
Lemma processFrame_history_values_witness :
  0 <= 1 # 2 <= 1
  /\ Forall (fun h => (60 <= h <= 160)%Z) (heartRateHistory Fixtures.proc_full)
  /\ Forall (fun bp => (20 <= fst bp - snd bp <= 57)%Z) (bpHistory Fixtures.proc_full)
  /\ (let st' := fst (processFrame Fixtures.some_contour (Fixtures.const_sample Fixtures.sample_next)
                                   Fixtures.zero_confidence Fixtures.proc_full (Some (1, 1)%Z) 1000 (1 # 2)) in
      Forall (fun h => (60 <= h <= 160)%Z) (heartRateHistory st')
      /\ Forall (fun bp => (20 <= fst bp - snd bp <= 57)%Z) (bpHistory st'))
  /\ (let st' := fst (processFrame Fixtures.some_contour (Fixtures.const_sample Fixtures.sample_next)
                                   Fixtures.zero_confidence Fixtures.proc_full (Some (1, 1)%Z) 1000 (1 # 2)) in
      heartRateHistory st' = tl (heartRateHistory Fixtures.proc_full) ++ [100%Z]
      /\ exists bp, bpHistory st' = tl (bpHistory Fixtures.proc_full) ++ [bp]).
Proof.
  assert (Hr : 0 <= 1 # 2 <= 1) by lra.
  assert (Hh : Forall (fun h => (60 <= h <= 160)%Z) (heartRateHistory Fixtures.proc_full))
    by (cbn; repeat constructor; lia).
  assert (Hp : Forall (fun bp => (20 <= fst bp - snd bp <= 57)%Z) (bpHistory Fixtures.proc_full))
    by (cbn; repeat constructor; cbn; lia).
  split; [exact Hr|]. split; [exact Hh|]. split; [exact Hp|]. split.
  - exact (processFrame_history_values Fixtures.some_contour (Fixtures.const_sample Fixtures.sample_next)
             Fixtures.zero_confidence Fixtures.proc_full (Some (1, 1)%Z) 1000 (1 # 2) Hr Hh Hp).
  - destruct (processFrame_full_run (1 # 2)) as [_ [A B]]. split; [exact A | exact B].
Defined.

End ProcessorFacts.

Module AdvancedFacts.
Import Estimator Advanced AdvancedSpec.

Lemma inject_succ (n : nat) : inject_Z (Z.of_nat (S n)) == inject_Z (Z.of_nat n) + 1.
Proof. rewrite Nat2Z.inj_succ, <- Z.add_1_r, inject_Z_plus. reflexivity. Qed.

Lemma fold_sum_bounds (a b : Q) (l : list Q) : forall acc,
  Forall (fun v => a <= v <= b) l ->
  acc + inject_Z (Z.of_nat (length l)) * a <= fold_left Qplus l acc
  <= acc + inject_Z (Z.of_nat (length l)) * b.
Proof.
  induction l as [|v l IH]; intros acc Hl; cbn [fold_left length].
  - unfold inject_Z; cbn [Z.of_nat]. split; lra.
  - inversion Hl as [|? ? Hv Hl']; subst. rewrite inject_succ.
    destruct (IH (acc + v) Hl'). split; lra.
Qed.

Lemma fold_sum_pos (l : list Q) : forall acc,
  Forall (fun v => 0 < v) l -> 0 <= acc -> l <> [] -> 0 < fold_left Qplus l acc.
Proof.
  induction l as [|v l IH]; intros acc Hl Ha Hne; [congruence|].
  inversion Hl as [|? ? Hv Hl']; subst. cbn [fold_left].
  destruct l as [|w l]; [cbn; lra|]. apply IH; [exact Hl' | lra | discriminate].
Qed.

Lemma fold_sum_shift (c : Q) (l : list Q) : forall acc,
  fold_left Qplus (map (fun v => v - c) l) acc
  == fold_left Qplus l acc - inject_Z (Z.of_nat (length l)) * c.
Proof.
  induction l as [|v l IH]; intros acc; cbn [map fold_left length].
  - unfold inject_Z; cbn [Z.of_nat]. ring.
  - rewrite IH, inject_succ.
    assert (H : forall x y, x == y -> fold_left Qplus l x == fold_left Qplus l y).
    { clear IH. induction l as [|u l IHl]; intros x y Hxy; cbn [fold_left]; [exact Hxy|].
      apply IHl. rewrite Hxy. reflexivity. }
    assert (Hs : forall x, fold_left Qplus l x == x + fold_left Qplus l 0).
    { clear IH H. induction l as [|u l IHl]; intros x; cbn [fold_left]; [ring|].
      rewrite (IHl (x + u)), (IHl (0 + u)). ring. }
    rewrite (Hs (acc + (v - c))), (Hs (acc + v)). ring.
Qed.

(** The sum of a list minus its mean is 0. *)
Lemma sum_minus_mean (l : list Q) :
  l <> [] -> sumQ (map (fun v => v - meanQ l) l) == 0.
Proof.
  intros Hne. unfold sumQ at 1. rewrite fold_sum_shift. unfold meanQ, sumQ.
  assert (Hn : ~ inject_Z (Z.of_nat (length l)) == 0).
  { destruct l as [|x l]; [congruence|]. cbn [length]. rewrite inject_succ.
    assert (0 <= inject_Z (Z.of_nat (length l))) by (change 0 with (inject_Z 0); rewrite <- Zle_Qle; lia).
    lra. }
  field. exact Hn.
Qed.

Lemma unit_ratio (mn mx v : Q) :
  mn <= v <= mx -> 0 < mx - mn -> 0 <= (v - mn) / (mx - mn) <= 1.
Proof.
  intros [H1 H2] H. split.
  - apply Qle_shift_div_l; [exact H | lra].
  - apply Qle_shift_div_r; [exact H | lra].
Qed.

Lemma bandpass_window (signal : list Q) (i : nat) :
  (i < length signal)%nat ->
  let n := length signal in
  let lo := (i - 5)%nat in
  let hi := Nat.min (n - 1) (i + 5) in
  minQ signal <= sumQ (map (at_ signal) (seq lo (S hi - lo)))
                 / inject_Z (Z.of_nat (length (seq lo (S hi - lo))))
  <= maxQ signal.
Proof.
  intros Hi n lo hi.
  set (js := seq lo (S hi - lo)).
  assert (Hall : Forall (fun v => minQ signal <= v <= maxQ signal) (map (at_ signal) js)).
  { apply Forall_map, Forall_forall. intros j Hj. unfold js in Hj. apply in_seq in Hj.
    apply RealFacts.minQ_maxQ_bounds. unfold at_. apply nth_In. unfold hi, n in Hj. lia. }
  pose proof (fold_sum_bounds _ _ _ 0 Hall) as [Hlo Hhi]. rewrite length_map in Hlo, Hhi.
  fold (sumQ (map (at_ signal) js)) in Hlo, Hhi.
  assert (Hk : 0 < inject_Z (Z.of_nat (length js))).
  { unfold js. rewrite length_seq. change 0 with (inject_Z 0). rewrite <- Zlt_Qlt.
    unfold hi, lo, n. lia. }
  split.
  - apply Qle_shift_div_l; [exact Hk|]. rewrite Qmult_comm. lra.
  - apply Qle_shift_div_r; [exact Hk|]. rewrite Qmult_comm. lra.
Qed.

Lemma normalize_range (signal : list Q) :
  length (normalizeSignal signal) = length signal
  /\ Forall (fun v => -1 <= v <= 1) (normalizeSignal signal).
Proof.
  unfold normalizeSignal. destruct signal as [|x r]; [split; [reflexivity | constructor]|].
  set (l := x :: r). cbv zeta.
  destruct (Qeq_bool (maxQ l - minQ l) 0) eqn:E; rewrite length_map; (split; [reflexivity|]);
    apply Forall_map, Forall_forall.
  - intros _ _. lra.
  - intros v Hv. pose proof (RealFacts.minQ_maxQ_bounds l v Hv) as Hb.
    assert (Hne : ~ maxQ l - minQ l == 0) by (intros H; apply Qeq_bool_iff in H; congruence).
    pose proof (unit_ratio (minQ l) (maxQ l) v Hb ltac:(lra)). lra.
Qed.

Lemma peak_gaps_snoc (l : list nat) (a b : nat) :
  Enhanced.peak_gaps (l ++ [a; b]) = Enhanced.peak_gaps (l ++ [a]) ++ [inject_Z (Z.of_nat b - Z.of_nat a)].
Proof.
  induction l as [|x [|y l] IH]; [reflexivity | reflexivity|].
  assert (Hc : forall r, Enhanced.peak_gaps (x :: y :: r)
                         = inject_Z (Z.of_nat y - Z.of_nat x) :: Enhanced.peak_gaps (y :: r))
    by reflexivity.
  cbn [app] in IH |- *. rewrite !Hc, IH. reflexivity.
Qed.

Lemma peak_rates_gaps (ps : list nat) :
  peak_rates ps = map (fun d => 60 / (d / inject_Z sampleRate)) (Enhanced.peak_gaps ps).
Proof.
  induction ps as [|a [|b ps] IH]; [reflexivity | reflexivity|].
  change (peak_rates (a :: b :: ps))
    with (60 / (inject_Z (Z.of_nat b - Z.of_nat a) / inject_Z sampleRate) :: peak_rates (b :: ps)).
  change (Enhanced.peak_gaps (a :: b :: ps))
    with (inject_Z (Z.of_nat b - Z.of_nat a) :: Enhanced.peak_gaps (b :: ps)).
  rewrite IH. reflexivity.
Qed.

Lemma afind_peaks_step_inv (signal : list Q) (threshold : Q) (s : nat) (peaks : list nat) :
  (1 <= s)%nat -> (s + 2 <= length signal)%nat ->
  apeaks_inv signal threshold s peaks ->
  apeaks_inv signal threshold (S s) (find_peaks_step signal threshold peaks s).
Proof.
  intros Hs1 Hs2 [Hgap [Hok Hlt]].
  assert (Hlt' : Forall (fun p => (p < S s)%nat) peaks)
    by (eapply Forall_impl; [|exact Hlt]; intros p Hp; cbn beta in *; lia).
  assert (Hkeep : apeaks_inv signal threshold (S s) peaks) by (split; [exact Hgap | split; assumption]).
  unfold find_peaks_step.
  destruct (qlt (at_ signal (s - 1)) (at_ signal s)) eqn:E1; [|exact Hkeep].
  destruct (qlt (at_ signal (s + 1)) (at_ signal s)) eqn:E2; [|exact Hkeep].
  destruct (qlt threshold (at_ signal s)) eqn:E3; [|exact Hkeep].
  cbn [andb]. apply RealFacts.qlt_true in E1, E2, E3.
  assert (Hok' : Forall (apeak_ok signal threshold) (peaks ++ [s]))
    by (apply Forall_app; split; [exact Hok | constructor; [repeat split; auto; lia | constructor]]).
  assert (Hall : Forall (fun p => (p < S s)%nat) (peaks ++ [s]))
    by (apply Forall_app; split; [exact Hlt' | constructor; [lia | constructor]]).
  destruct (rev peaks) as [|last rest] eqn:R.
  - assert (peaks = []) as -> by (apply (f_equal (@rev nat)) in R; now rewrite rev_involutive in R).
    split; [constructor | split; assumption].
  - destruct (Z.leb_spec minPeakDistance (Z.of_nat s - Z.of_nat last)) as [E4|]; [|exact Hkeep].
    split; [| split; assumption].
    assert (Hp : peaks = rev rest ++ [last])
      by (rewrite <- (rev_involutive peaks), R; reflexivity).
    rewrite Hp in Hgap |- *. rewrite <- app_assoc. cbn [app].
    rewrite peak_gaps_snoc. apply Forall_app. split; [exact Hgap|].
    constructor; [rewrite <- Zle_Qle; exact E4 | constructor].
Qed.

Lemma afindPeaks_inv (signal : list Q) (threshold : Q) :
  apeaks_inv signal threshold (length signal - 1) (findPeaks threshold signal).
Proof.
  unfold findPeaks.
  assert (Hf : forall k s peaks, (1 <= s)%nat -> (s + k + 1 <= length signal)%nat ->
            apeaks_inv signal threshold s peaks ->
            apeaks_inv signal threshold (s + k)
              (fold_left (find_peaks_step signal threshold) (seq s k) peaks)).
  { induction k as [|k IH]; intros s peaks H1 H2 Hinv.
    - now rewrite Nat.add_0_r.
    - cbn [seq fold_left]. replace (s + S k)%nat with (S s + k)%nat by lia.
      apply IH; [lia | lia|]. apply afind_peaks_step_inv; [lia | lia | exact Hinv]. }
  destruct (Nat.le_gt_cases 2 (length signal)).
  - replace (length signal - 1)%nat with (1 + (length signal - 2))%nat by lia.
    apply Hf; [lia | lia|]. split; [constructor | split; constructor].
  - replace (length signal - 2)%nat with 0%nat by lia. cbn.
    split; [constructor | split; constructor].
Qed.

Lemma hdrel_insertQ (y x : Q) (l : list Q) :
  y <= x -> HdRel Qle y l -> HdRel Qle y (insertQ x l).
Proof.
  intros Hyx Hd. destruct l as [|b l]; cbn [insertQ]; [now constructor|].
  destruct (Qle_bool x b); constructor; [exact Hyx|]. now inversion Hd.
Qed.

Lemma insertQ_sorted (x : Q) (l : list Q) : Sorted Qle l -> Sorted Qle (insertQ x l).
Proof.
  induction l as [|a l IH]; intros Hs; cbn [insertQ]; [now repeat constructor|].
  inversion Hs as [|? ? Hs' Hd]; subst.
  destruct (Qle_bool x a) eqn:E.
  - constructor; [exact Hs|]. constructor. now apply Qle_bool_iff.
  - constructor; [now apply IH|]. apply hdrel_insertQ; [|exact Hd].
    apply Qlt_le_weak, Qnot_le_lt. intros H. apply Qle_bool_iff in H. congruence.
Qed.

Lemma sortQ_sorted (l : list Q) : Sorted Qle (sortQ l).
Proof. induction l as [|x l IH]; cbn [sortQ]; [constructor | now apply insertQ_sorted]. Qed.

Lemma in_insertQ (v x : Q) (l : list Q) : In v (insertQ x l) <-> x = v \/ In v l.
Proof.
  induction l as [|a l IH]; cbn [insertQ]; [cbn; tauto|].
  destruct (Qle_bool x a); cbn [In]; [tauto|]. rewrite IH. tauto.
Qed.

Lemma in_sortQ (v : Q) (l : list Q) : In v (sortQ l) <-> In v l.
Proof.
  induction l as [|x l IH]; cbn [sortQ]; [tauto|]. rewrite in_insertQ, IH. cbn [In]. tauto.
Qed.

Lemma length_insertQ (x : Q) (l : list Q) : length (insertQ x l) = S (length l).
Proof. induction l as [|a l IH]; cbn [insertQ]; [reflexivity|]. destruct (Qle_bool x a); cbn; lia. Qed.

Lemma length_sortQ (l : list Q) : length (sortQ l) = length l.
Proof. induction l as [|x l IH]; cbn [sortQ]; [reflexivity|]. rewrite length_insertQ. cbn. lia. Qed.

Lemma sorted_nth (l : list Q) (i j : nat) :
  Sorted Qle l -> (i <= j < length l)%nat -> nth i l 0 <= nth j l 0.
Proof.
  intros Hs. apply (Sorted_StronglySorted (fun x y z => Qle_trans x y z)) in Hs.
  revert i j. induction l as [|a l IH]; intros i j Hij; [cbn in Hij; lia|].
  apply StronglySorted_inv in Hs as [Hs Ha].
  destruct i as [|i], j as [|j]; cbn [nth length] in *.
  - apply Qle_refl.
  - rewrite Forall_forall in Ha. apply Ha, nth_In. lia.
  - lia.
  - apply IH; [exact Hs | lia].
Qed.

(** [removeOutliers] keeps the first quartile [q1] of a list of three or
    more values: it never empties a non-empty list. *)
Lemma removeOutliers_nonempty (data : list Q) : data <> [] -> removeOutliers data <> [].
Proof.
  intros Hne. unfold removeOutliers.
  destruct (Nat.ltb_spec (length data) 3); [exact Hne|]. cbv zeta.
  set (sorted := sortQ data).
  assert (Hlen : length sorted = length data) by apply length_sortQ.
  set (q1 := nth (length sorted / 4) sorted 0).
  set (q3 := nth (length sorted * 3 / 4) sorted 0).
  assert (Hi1 : (length sorted / 4 < length sorted)%nat) by (apply Nat.div_lt; lia).
  assert (Hi3 : (length sorted * 3 / 4 < length sorted)%nat)
    by (apply Nat.Div0.div_lt_upper_bound; lia).
  assert (Hq : q1 <= q3).
  { apply sorted_nth; [apply sortQ_sorted|]. split; [|exact Hi3].
    apply Nat.Div0.div_le_mono. lia. }
  assert (Hin : In q1 data) by (apply (in_sortQ q1 data), nth_In, Hi1).
  intros Hnil.
  assert (Hf : In q1 (filter (fun v => qle (q1 - (3 # 2) * (q3 - q1)) v && qle v (q3 + (3 # 2) * (q3 - q1))) data)).
  { apply filter_In. split; [exact Hin|].
    destruct (EstimatorFacts.qle_cases (q1 - (3 # 2) * (q3 - q1)) q1) as [[E1 _]|[_ H1]]; [|lra].
    destruct (EstimatorFacts.qle_cases q1 (q3 + (3 # 2) * (q3 - q1))) as [[E2 _]|[_ H2]]; [|lra].
    now rewrite E1, E2. }
  rewrite Hnil in Hf. destruct Hf.
Qed.

Lemma removeOutliers_Forall (P : Q -> Prop) (data : list Q) :
  Forall P data -> Forall P (removeOutliers data).
Proof.
  intros H. unfold removeOutliers.
  destruct (Nat.ltb (length data) 3); [exact H|]. cbv zeta.
  apply Forall_forall. intros v Hv. apply filter_In in Hv as [Hv _].
  rewrite Forall_forall in H. now apply H.
Qed.

Lemma length_peak_gaps (ps : list nat) : length (Enhanced.peak_gaps ps) = (length ps - 1)%nat.
Proof.
  induction ps as [|a [|b ps] IH]; [reflexivity | reflexivity|].
  change (Enhanced.peak_gaps (a :: b :: ps))
    with (inject_Z (Z.of_nat b - Z.of_nat a) :: Enhanced.peak_gaps (b :: ps)).
  cbn [length] in *. rewrite IH. lia.
Qed.

Lemma rate_bounds (d : Q) : 12 <= d -> 0 < 60 / (d / inject_Z sampleRate) <= 150.
Proof.
  intros Hd. assert (Hd0 : ~ d == 0) by lra.
  assert (E : 60 / (d / inject_Z sampleRate) == 1800 / d)
    by (unfold sampleRate; field; exact Hd0).
  rewrite E. split.
  - apply Qlt_shift_div_l; lra.
  - apply Qle_shift_div_r; lra.
Qed.

Lemma mean_bounds (l : list Q) :
  l <> [] -> Forall (fun v => 0 < v <= 150) l ->
  0 < sumQ l / inject_Z (Z.of_nat (length l)) <= 150.
Proof.
  intros Hne Hall.
  assert (Hk : 0 < inject_Z (Z.of_nat (length l))).
  { destruct l as [|x l]; [congruence|]. change 0 with (inject_Z 0). rewrite <- Zlt_Qlt. cbn [length]. lia. }
  assert (Hpos : 0 < sumQ l).
  { apply fold_sum_pos; [| lra | exact Hne]. eapply Forall_impl; [|exact Hall]. intros v Hv; cbn beta in *; lra. }
  assert (Hb : Forall (fun v => 0 <= v <= 150) l)
    by (eapply Forall_impl; [|exact Hall]; intros v Hv; cbn beta in *; lra).
  destruct (fold_sum_bounds 0 150 l 0 Hb) as [_ Hhi]. fold (sumQ l) in Hhi.
  split.
  - apply Qlt_shift_div_l; [exact Hk | lra].
  - apply Qle_shift_div_r; [exact Hk|]. rewrite Qmult_comm. lra.
Qed.

Lemma count_le (p : Q -> bool) (l : list Q) :
  0 <= inject_Z (Z.of_nat (length (filter p l))) <= inject_Z (Z.of_nat (length l)).
Proof.
  pose proof (filter_length_le p l). change 0 with (inject_Z 0). rewrite <- !Zle_Qle. lia.
Qed.

Lemma fold_Qmax_repeat (c : Q) (k : nat) : fold_left Qmax (repeat c k) c = c.
Proof. induction k as [|k IH]; [reflexivity|]. cbn [repeat fold_left]. now rewrite DetectorFacts.Qmax_same. Qed.

Lemma fold_Qmin_repeat (c : Q) (k : nat) : fold_left Qmin (repeat c k) c = c.
Proof. induction k as [|k IH]; [reflexivity|]. cbn [repeat fold_left]. now rewrite DetectorFacts.Qmin_same. Qed.

Lemma filter_repeat_true (p : Q -> bool) (c : Q) (k : nat) :
  p c = true -> filter p (repeat c k) = repeat c k.
Proof. intros H. induction k as [|k IH]; [reflexivity|]. cbn [repeat filter]. now rewrite H, IH. Qed.

Lemma qlt_of (a b : Q) : a < b -> qlt a b = true.
Proof. destruct (EstimatorFacts.qlt_cases a b) as [[E _]|[_ H]]; [auto | intros; lra]. Qed.

Lemma qlt_not (a b : Q) : b <= a -> qlt a b = false.
Proof. destruct (EstimatorFacts.qlt_cases a b) as [[_ H]|[E _]]; [intros; lra | auto]. Qed.

Lemma qle_of (a b : Q) : a <= b -> qle a b = true.
Proof. destruct (EstimatorFacts.qle_cases a b) as [[E _]|[_ H]]; [auto | intros; lra]. Qed.

Lemma variance_const (c : Q) (l : list Q) :
  l <> [] -> Forall (fun v => v = c) l -> 
  sumQ (map (fun v => (v - meanQ l) * (v - meanQ l)) l) / inject_Z (Z.of_nat (length l)) == 0.
Proof.
  intros Hne Hall.
  assert (Hk : 0 < inject_Z (Z.of_nat (length l))).
  { destruct l as [|x l]; [congruence|]. change 0 with (inject_Z 0). rewrite <- Zlt_Qlt. cbn [length]. lia. }
  assert (Hm : meanQ l == c).
  { assert (Hb : Forall (fun v => c <= v <= c) l)
      by (eapply Forall_impl; [|exact Hall]; intros v ->; lra).
    destruct (fold_sum_bounds c c l 0 Hb) as [H1 H2]. unfold meanQ.
    assert (Hs : sumQ l == inject_Z (Z.of_nat (length l)) * c) by (unfold sumQ; lra).
    rewrite Hs. field. lra. }
  assert (Hb : Forall (fun v => 0 <= v <= 0) (map (fun v => (v - meanQ l) * (v - meanQ l)) l)).
  { apply Forall_map. eapply Forall_impl; [|exact Hall]. intros v ->. rewrite Hm.
    setoid_replace ((c - c) * (c - c)) with 0 by ring. lra. }
  destruct (fold_sum_bounds 0 0 _ 0 Hb) as [H1 H2]. fold (sumQ (map (fun v => (v - meanQ l) * (v - meanQ l)) l)) in H1, H2.
  setoid_replace (sumQ (map (fun v => (v - meanQ l) * (v - meanQ l)) l)) with 0 by lra.
  field. lra.
Qed.

Lemma in_skipn {A} (k : nat) (l : list A) (v : A) : In v (skipn k l) -> In v l.
Proof. intros H. rewrite <- (firstn_skipn k l). apply in_or_app. now right. Qed.

Lemma map_fst_combine {A B} (l : list A) (l' : list B) :
  length l = length l' -> map fst (combine l l') = l.
Proof.
  revert l'; induction l as [|a l IH]; intros [|b l'] H; cbn in *; try (reflexivity || lia).
  rewrite IH; [reflexivity | lia].
Qed.

Lemma advanced_bandpass_bounded_helper (signal : list Q) :
  length (bandpassFilter signal) = length signal
  /\ Forall (fun v => minQ signal <= v <= maxQ signal) (bandpassFilter signal).
Proof.
  unfold bandpassFilter. rewrite length_map, length_seq. split; [reflexivity|].
  apply Forall_map, Forall_forall. intros i Hi. apply in_seq in Hi.
  apply bandpass_window. lia.
Qed.

(** X11: the moving average [bandpassFilter] returns one value per sample,
    each between the minimum and the maximum of the input. *)
Theorem advanced_bandpass_bounded (signal : list Q) :
  length (bandpassFilter signal) = length signal
  /\ Forall (fun v => minQ signal <= v <= maxQ signal) (bandpassFilter signal).
Proof. apply advanced_bandpass_bounded_helper. Qed.

(** X12: [detrend] returns the empty signal unchanged and otherwise one
    value per sample, summing to 0. *)
Theorem detrend_zero_sum (signal : list Q) :
  length (detrend signal) = length signal
  /\ (signal <> [] -> sumQ (detrend signal) == 0).
Proof.
  unfold detrend. destruct signal as [|x r]; [split; [reflexivity | congruence]|].
  rewrite length_map. split; [reflexivity|]. intros Hne. now apply sum_minus_mean.
Qed.

(** X13: [getDisplaySignal] returns [min(60, length)] points with
    [x = 0, 1, ...] and every [y] in [[-1, 1]]. *)
Theorem advanced_getDisplaySignal_range (greenBuffer : list Q) :
  let pts := getDisplaySignal greenBuffer in
  length pts = Nat.min 60 (length greenBuffer)
  /\ map fst pts = seq 0 (length pts)
  /\ Forall (fun pt => -1 <= snd pt <= 1) pts.
Proof.
  cbv zeta. unfold getDisplaySignal.
  assert (Hl : length (skipn (length greenBuffer - 60) greenBuffer) = Nat.min 60 (length greenBuffer))
    by (rewrite length_skipn; lia).
  destruct (skipn (length greenBuffer - 60) greenBuffer) as [|x r] eqn:E.
  - cbn in Hl |- *. rewrite <- Hl. split; [reflexivity | split; [reflexivity | constructor]].
  - cbv zeta. rewrite <- Hl.
    destruct (normalize_range (bandpassFilter (x :: r))) as [Hn Hr].
    pose proof (proj1 (advanced_bandpass_bounded_helper (x :: r))) as Hb.
    set (nl := normalizeSignal (bandpassFilter (x :: r))) in *.
    assert (Hc : length (combine (seq 0 (length nl)) nl) = length nl)
      by (rewrite length_combine, length_seq; lia).
    rewrite Hc. split; [congruence|]. split.
    + rewrite map_fst_combine by (now rewrite length_seq). reflexivity.
    + apply Forall_forall. intros [k v] Hin. apply in_combine_r in Hin.
      rewrite Forall_forall in Hr. exact (Hr v Hin).
Qed.

(** X14: [findPeaks] returns peaks at indices [1 .. length - 2], each a
    strict local maximum above the threshold, each at least
    [minPeakDistance = 12] samples after the previous one. *)
Theorem advanced_findPeaks_sound (threshold : Q) (signal : list Q) :
  let peaks := findPeaks threshold signal in
  Forall (fun d => 12 <= d) (Enhanced.peak_gaps peaks)
  /\ Forall (fun i => (1 <= i /\ i + 2 <= length signal)%nat
                      /\ at_ signal (i - 1) < at_ signal i
                      /\ at_ signal (i + 1) < at_ signal i
                      /\ threshold < at_ signal i) peaks.
Proof.
  destruct (afindPeaks_inv signal threshold) as [H1 [H2 _]].
  split; [exact H1 | exact H2].
Qed.

(** X15: [calculateHRFromPeaks] returns [null] exactly when fewer than two
    peaks are found ([removeOutliers] never empties the rates); otherwise
    the rate lies in [(0, 150]] BPM, since peaks are at least 12 samples
    (0.4 s) apart. *)
Theorem calculateHRFromPeaks_range (threshold : Q) (signal : list Q) :
  (calculateHRFromPeaks threshold signal = None
     <-> (length (findPeaks threshold signal) < 2)%nat)
  /\ (forall hr, calculateHRFromPeaks threshold signal = Some hr -> 0 < hr <= 150).
Proof.
  destruct (afindPeaks_inv signal threshold) as [Hgap _].
  unfold calculateHRFromPeaks. cbv zeta.
  destruct (Nat.ltb_spec (length (findPeaks threshold signal)) 2) as [Hlt|Hge].
  { split; [tauto | discriminate]. }
  set (ps := findPeaks threshold signal) in *.
  assert (Hrates : Forall (fun v => 0 < v <= 150) (peak_rates ps)).
  { rewrite peak_rates_gaps. apply Forall_map. eapply Forall_impl; [|exact Hgap].
    intros d Hd. apply rate_bounds. exact Hd. }
  assert (Hne : peak_rates ps <> []).
  { rewrite peak_rates_gaps. intros H. apply (f_equal (@length Q)) in H.
    rewrite length_map, length_peak_gaps in H. cbn in H. lia. }
  pose proof (removeOutliers_nonempty _ Hne) as Hne'.
  pose proof (removeOutliers_Forall _ _ Hrates) as Hf.
  destruct (removeOutliers (peak_rates ps)) as [|v vs] eqn:E; [congruence|].
  split; [split; [discriminate | lia]|].
  intros hr Ehr. injection Ehr as <-. apply mean_bounds; [discriminate | exact Hf].
Qed.

(** X16: [detectSaturation] lies in [[0, 2]]; on a constant positive
    signal every sample is counted both near the maximum and near the
    minimum, so [detectArtifacts] reports saturation and poor contact and
    no motion. *)
Theorem detectArtifacts_constant (c : Q) (n : nat) :
  0 < c ->
  (forall signalData, 0 <= detectSaturation signalData <= 2)
  /\ detectArtifacts (repeat c (S n)) = [Saturation; PoorContact].
Proof.
  intros Hc. split.
  - intros [|x r]; [cbn; lra|]. unfold detectSaturation. cbv zeta.
    set (l := x :: r).
    pose proof (count_le (fun v => qlt (maxQ l * (95 # 100)) v) l) as [A1 A2].
    pose proof (count_le (fun v => qlt v (minQ l * (105 # 100))) l) as [B1 B2].
    assert (Hk : 0 < inject_Z (Z.of_nat (length l)))
      by (change 0 with (inject_Z 0); rewrite <- Zlt_Qlt; cbn; lia).
    rewrite Nat2Z.inj_add, inject_Z_plus. split.
    + apply Qle_shift_div_l; [exact Hk | lra].
    + apply Qle_shift_div_r; [exact Hk | lra].
  - unfold detectArtifacts. change (repeat c (S n)) with (c :: repeat c n).
    assert (Hmx : maxQ (c :: repeat c n) = c) by apply fold_Qmax_repeat.
    assert (Hmn : minQ (c :: repeat c n) = c) by apply fold_Qmin_repeat.
    assert (Hsat : qlt (8 # 10) (detectSaturation (c :: repeat c n)) = true).
    { apply qlt_of. unfold detectSaturation. cbv zeta. rewrite Hmx, Hmn.
      change (c :: repeat c n) with (repeat c (S n)).
      rewrite !filter_repeat_true by (apply qlt_of; lra).
      rewrite repeat_length, Nat2Z.inj_add, inject_Z_plus.
      assert (Hk : 0 < inject_Z (Z.of_nat (S n)))
        by (change 0 with (inject_Z 0); rewrite <- Zlt_Qlt; lia).
      apply Qlt_shift_div_l; [exact Hk | lra]. }
    assert (Hcon : qlt (assessContactQuality (c :: repeat c n)) (3 # 10) = true).
    { apply qlt_of. unfold assessContactQuality. rewrite Hmx, Hmn.
      pose proof (Q.le_min_r 1 ((c - c) / 50)) as H.
      assert (E : (c - c) / 50 == 0) by field. lra. }
    assert (Hmot : Nat.leb 10 (length (c :: repeat c n))
                   && qlt 40000 (accelerationVariance (c :: repeat c n)) = false).
    { change (c :: repeat c n) with (repeat c (S n)).
      destruct (Nat.leb_spec 10 (length (repeat c (S n)))) as [Hl|]; [|reflexivity].
      cbn [andb]. apply qlt_not. unfold accelerationVariance. cbv zeta.
      rewrite variance_const with (c := c); [lra| |].
      - intros H. apply (f_equal (@length Q)) in H. rewrite length_skipn, repeat_length in H.
        rewrite repeat_length in Hl. cbn [length] in H. lia.
      - apply Forall_forall. intros v Hv. apply in_skipn in Hv. now apply repeat_spec in Hv. }
    rewrite Hmot, Hsat, Hcon. reflexivity.
Qed.

(** X17: [classifySignalQuality] is monotone in the confidence: with the
    same SNR and HRV, a higher confidence never gives a lower grade. *)
Theorem classifySignalQuality_monotone (c1 c2 snr hrv : Q) :
  c1 <= c2 ->
  (grade_rank (classifySignalQuality c1 snr hrv) <= grade_rank (classifySignalQuality c2 snr hrv))%nat.
Proof.
  intros Hc. unfold classifySignalQuality. cbv zeta.
  set (rest := Qmin (snr / 20) 1 * (3 # 10) + Qmax 0 (1 - hrv / 10) * (2 # 10)).
  assert (E : forall c, c * (1 # 2) + Qmin (snr / 20) 1 * (3 # 10) + Qmax 0 (1 - hrv / 10) * (2 # 10)
                        == c * (1 # 2) + rest) by (intros; unfold rest; ring).
  set (s1 := c1 * (1 # 2) + Qmin (snr / 20) 1 * (3 # 10) + Qmax 0 (1 - hrv / 10) * (2 # 10)).
  set (s2 := c2 * (1 # 2) + Qmin (snr / 20) 1 * (3 # 10) + Qmax 0 (1 - hrv / 10) * (2 # 10)).
  assert (Hs : s1 <= s2) by (unfold s1, s2; rewrite !E; lra).
  destruct (EstimatorFacts.qle_cases (9 # 10) s1) as [[E1 H1]|[E1 H1]]; rewrite E1;
  [rewrite (qle_of _ _ (Qle_trans _ _ _ H1 Hs)); cbn; lia|].
  destruct (EstimatorFacts.qle_cases (9 # 10) s2) as [[F1 _]|[F1 _]]; rewrite F1; [cbn; destruct (qle (7 # 10) s1), (qle (5 # 10) s1); cbn; lia|].
  destruct (EstimatorFacts.qle_cases (7 # 10) s1) as [[E2 H2]|[E2 H2]]; rewrite E2;
  [rewrite (qle_of _ _ (Qle_trans _ _ _ H2 Hs)); cbn; lia|].
  destruct (EstimatorFacts.qle_cases (7 # 10) s2) as [[F2 _]|[F2 _]]; rewrite F2; [cbn; destruct (qle (5 # 10) s1); cbn; lia|].
  destruct (EstimatorFacts.qle_cases (5 # 10) s1) as [[E3 H3]|[E3 H3]]; rewrite E3;
  [rewrite (qle_of _ _ (Qle_trans _ _ _ H3 Hs)); cbn; lia|].
  destruct (qle (5 # 10) s2); cbn; lia.
Qed.

Lemma detectArtifacts_constant_witness :
  0 < 100 /\ detectArtifacts (repeat 100 20) = [Saturation; PoorContact].
Proof.
  assert (H : 0 < 100) by lra.
  split; [exact H | exact (proj2 (detectArtifacts_constant 100 19 H))].
Defined.

Lemma classifySignalQuality_monotone_witness :
  1 # 2 <= 1
  /\ (grade_rank (classifySignalQuality (1 # 2) 10 2) <= grade_rank (classifySignalQuality 1 10 2))%nat.
Proof.
  assert (H : 1 # 2 <= 1) by lra.
  split; [exact H | exact (classifySignalQuality_monotone (1 # 2) 1 10 2 H)].
Defined.

End AdvancedFacts.

Module EnhancedFacts.
Import Estimator Enhanced AdvancedFacts EnhancedSpec.

Lemma estimate_range (signal : list Q) (hr : Z) :
  estimateHeartRate signal = Some hr -> (60 <= hr <= 150)%Z.
Proof.
  unfold estimateHeartRate.
  destruct (Nat.ltb (length signal) 60); [discriminate|].
  destruct (Nat.ltb (length (findPeaks signal)) 2); [discriminate|].
  intros E; injection E as <-. apply EstimatorFacts.js_round_bounds; apply RealFacts.clamp_bounds; lia.
Qed.

Lemma fold_Zsum_bounds (lo hi : Z) (l : list Z) : forall acc,
  Forall (fun x => (lo <= x <= hi)%Z) l ->
  (acc + Z.of_nat (length l) * lo <= fold_left Z.add l acc <= acc + Z.of_nat (length l) * hi)%Z.
Proof.
  induction l as [|x l IH]; intros acc Hl; cbn [fold_left length]; [lia|].
  inversion Hl as [|? ? Hx Hl']; subst. specialize (IH (acc + x)%Z Hl'). lia.
Qed.

Lemma smoothed_bounds (lo hi : Z) (h : list Z) (r : Z) :
  Forall (fun x => (lo <= x <= hi)%Z) h ->
  Smoothing.enhanced_getSmoothedHeartRate h = Some r -> (lo <= r <= hi)%Z.
Proof.
  intros Hall. unfold Smoothing.enhanced_getSmoothedHeartRate.
  destruct h as [|x t]; [discriminate|]. set (h := x :: t).
  intros E; injection E as <-.
  set (recent := skipn (length h - 3) h).
  assert (Hr : Forall (fun x => (lo <= x <= hi)%Z) recent).
  { apply Forall_forall. intros v Hv. rewrite Forall_forall in Hall. apply Hall, (in_skipn _ _ _ Hv). }
  assert (Hk : (1 <= length recent)%nat) by (unfold recent, h; rewrite length_skipn; cbn [length]; lia).
  destruct (fold_Zsum_bounds lo hi recent 0 Hr) as [H1 H2].
  set (k := Z.of_nat (length recent)) in *.
  assert (Hk' : 0 < inject_Z k) by (change 0 with (inject_Z 0); rewrite <- Zlt_Qlt; unfold k; lia).
  change (skipn (length t - 2) h) with recent. fold k.
  apply EstimatorFacts.js_round_bounds.
  - apply Qle_shift_div_l; [exact Hk'|]. rewrite <- inject_Z_mult, <- Zle_Qle. lia.
  - apply Qle_shift_div_r; [exact Hk'|]. rewrite <- inject_Z_mult, <- Zle_Qle. lia.
Qed.

Lemma in_smoothing_insert (v x : Q) (l : list Q) : In v (Smoothing.insert x l) <-> x = v \/ In v l.
Proof.
  induction l as [|a l IH]; cbn [Smoothing.insert]; [cbn; tauto|].
  destruct (qle x a); cbn [In]; [tauto|]. rewrite IH. tauto.
Qed.

Lemma in_smoothing_sort (v : Q) (l : list Q) : In v (Smoothing.sort l) <-> In v l.
Proof.
  induction l as [|x l IH]; cbn [Smoothing.sort]; [tauto|]. rewrite in_smoothing_insert, IH. cbn [In]. tauto.
Qed.

Lemma length_smoothing_sort (l : list Q) : length (Smoothing.sort l) = length l.
Proof.
  induction l as [|x l IH]; cbn [Smoothing.sort]; [reflexivity|].
  assert (Hi : forall m, length (Smoothing.insert x m) = S (length m)).
  { induction m as [|a m IHm]; cbn [Smoothing.insert]; [reflexivity|]. destruct (qle x a); cbn; lia. }
  rewrite Hi, IH. reflexivity.
Qed.

Lemma median_bounds (lo hi : Z) (h : list Q) (r : Q) :
  Forall (fun x => (inject_Z lo <= x <= inject_Z hi)%Q) h ->
  Smoothing.advanced_getSmoothedHeartRate h = Some r -> (inject_Z lo <= r <= inject_Z hi)%Q.
Proof.
  intros Hall. unfold Smoothing.advanced_getSmoothedHeartRate.
  destruct h as [|x t]; [discriminate|]. set (h := x :: t). cbv zeta.
  set (sorted := Smoothing.sort h).
  assert (Hlen : length sorted = length h) by apply length_smoothing_sort.
  assert (Hin : forall i, (i < length sorted)%nat -> (inject_Z lo <= nth i sorted 0 <= inject_Z hi)%Q).
  { intros i Hi. rewrite Forall_forall in Hall. apply Hall, (in_smoothing_sort _ h), nth_In, Hi. }
  assert (Hpos : (1 <= length sorted)%nat) by (rewrite Hlen; cbn; lia).
  assert (Hm : (length sorted / 2 < length sorted)%nat) by (apply Nat.div_lt; lia).
  change (fst (Nat.divmod (length sorted) 1 0 1)) with (length sorted / 2)%nat.
  destruct (Nat.even (length sorted)) eqn:Ev.
  - intros E; injection E as <-.
    assert (H2 : (2 <= length sorted)%nat).
    { destruct (length sorted) as [|[|k]]; [lia | discriminate | lia]. }
    assert (Hm1 : (1 <= length sorted / 2)%nat) by (apply Nat.div_le_lower_bound; lia).
    pose proof (Hin (length sorted / 2 - 1)%nat ltac:(lia)) as A.
    pose proof (Hin (length sorted / 2)%nat Hm) as B.
    assert (R : (lo <= js_round (((nth (length sorted / 2 - 1) sorted 0
                                  + nth (length sorted / 2) sorted 0) / 2)%Q) <= hi)%Z).
    { apply EstimatorFacts.js_round_bounds.
      - apply Qle_shift_div_l; [reflexivity|]. lra.
      - apply Qle_shift_div_r; [reflexivity|]. lra. }
    change (fst (Nat.divmod (length sorted) 1 0 1)) with (length sorted / 2)%nat.
    split; rewrite <- Zle_Qle; lia.
  - intros E; injection E as <-. apply Hin, Hm.
Qed.

Section Metrics.
Variable calculateConfidence : list Q -> option Z -> list Z -> Q.

Lemma calculateMetrics_histories (st : state) :
  histories_ok st -> histories_ok (fst (calculateMetrics calculateConfidence st)).
Proof.
  intros [Heq [Hle Hall]]. unfold calculateMetrics. cbv zeta. cbn [fst].
  destruct (Pipeline.truthy_hr (estimateHeartRate (applyFiltering (Parallel.greenBuffer (buffers st)))))
    as [hr|] eqn:T; [|now split].
  assert (Hhr : (60 <= hr <= 150)%Z).
  { unfold Pipeline.truthy_hr in T.
    destruct (estimateHeartRate _) as [h|] eqn:E; [|discriminate].
    destruct (h =? 0)%Z; [discriminate|]. injection T as <-. exact (estimate_range _ _ E). }
  assert (Hall' : Forall (fun h => (60 <= h <= 150)%Z) (heartRateHistory st ++ [hr]))
    by (apply Forall_app; split; [exact Hall | constructor; [exact Hhr | constructor]]).
  rewrite length_app in *.
  destruct (Nat.ltb_spec 20 (length (heartRateHistory st) + length [hr])).
  - unfold histories_ok; cbn [heartRateHistory confidenceHistory].
    destruct (heartRateHistory st ++ [hr]) as [|a h] eqn:E1;
      [apply (f_equal (@length Z)) in E1; rewrite length_app in E1; cbn in E1; lia|].
    destruct (confidenceHistory st ++ _) as [|b c] eqn:E2;
      [apply (f_equal (@length Q)) in E2; rewrite length_app in E2; cbn in E2; lia|].
    apply (f_equal (@length Z)) in E1. apply (f_equal (@length Q)) in E2.
    rewrite length_app in E1, E2. cbn [tl length] in *.
    split; [lia | split; [lia|]]. now inversion Hall'.
  - unfold histories_ok; cbn [heartRateHistory confidenceHistory].
    rewrite !length_app. cbn [length] in *. split; [lia | split; [lia | exact Hall']].
Qed.

End Metrics.

Lemma skipn_repeat_eq {A} (k n : nat) (c : A) : skipn k (repeat c n) = repeat c (n - k).
Proof.
  revert n; induction k as [|k IH]; intros n; [now rewrite Nat.sub_0_r|].
  destruct n as [|n]; [reflexivity|]. cbn [repeat skipn]. rewrite IH. reflexivity.
Qed.

(** X18: [applyFiltering] returns one value per sample, and for a
    non-empty signal the values sum to 0 (the mean is subtracted after
    the moving average). *)
Theorem applyFiltering_zero_sum (signal : list Q) :
  length (applyFiltering signal) = length signal
  /\ (signal <> [] -> sumQ (applyFiltering signal) == 0).
Proof.
  unfold applyFiltering. cbv zeta.
  pose proof (proj1 (advanced_bandpass_bounded_helper signal)) as Hl.
  rewrite length_map, Hl. split; [reflexivity|].
  intros Hne. apply sum_minus_mean.
  intros H. apply (f_equal (@length Q)) in H. rewrite Hl in H.
  destruct signal; [congruence | discriminate].
Qed.

(** X19: [estimateHeartRate] returns [null] exactly when the signal has
    fewer than 60 samples or fewer than two peaks are found; otherwise a
    whole number of BPM in [[60, 150]]. *)
Theorem estimateHeartRate_range (signal : list Q) :
  (estimateHeartRate signal = None
     <-> (length signal < 60)%nat \/ (length (findPeaks signal) < 2)%nat)
  /\ (forall hr, estimateHeartRate signal = Some hr -> (60 <= hr <= 150)%Z).
Proof.
  split; [|apply estimate_range].
  unfold estimateHeartRate.
  destruct (Nat.ltb_spec (length signal) 60); [split; [left; assumption | reflexivity]|].
  destruct (Nat.ltb_spec (length (findPeaks signal)) 2); [split; [right; assumption | reflexivity]|].
  split; [discriminate | lia].
Qed.

(** X20: the [isValid] flag of [calculateMetrics] is true exactly when
    [estimateHeartRate] returned a value: a returned rate always lies in
    [[60, 150]], and [null] compares as 0. *)
Theorem calculateMetrics_isValid (calculateConfidence : list Q -> option Z -> list Z -> Q)
  (st : state) :
  m_isValid (snd (calculateMetrics calculateConfidence st))
  = match estimateHeartRate (applyFiltering (Parallel.greenBuffer (buffers st))) with
    | Some _ => true
    | None => false
    end.
Proof.
  unfold calculateMetrics. cbv zeta. cbn [snd m_isValid].
  destruct (estimateHeartRate _) as [h|] eqn:E; [|reflexivity].
  apply estimate_range in E. apply andb_true_intro. split; apply Z.leb_le; lia.
Qed.

(** X21: [calculateMetrics] keeps the heart-rate and confidence histories
    of equal length, at most 20 entries, with every recorded rate in
    [[60, 150]]; the smoothed rate it reports then also lies in
    [[60, 150]]. *)
Theorem calculateMetrics_histories_bounded (calculateConfidence : list Q -> option Z -> list Z -> Q)
  (st : state) :
  length (heartRateHistory st) = length (confidenceHistory st) ->
  (length (heartRateHistory st) <= 20)%nat ->
  Forall (fun h => (60 <= h <= 150)%Z) (heartRateHistory st) ->
  let (st', m) := calculateMetrics calculateConfidence st in
  length (heartRateHistory st') = length (confidenceHistory st')
  /\ (length (heartRateHistory st') <= 20)%nat
  /\ Forall (fun h => (60 <= h <= 150)%Z) (heartRateHistory st')
  /\ (forall r, m_heartRate m = Some r -> (60 <= r <= 150)%Z).
Proof.
  intros H1 H2 H3.
  pose proof (calculateMetrics_histories calculateConfidence st (conj H1 (conj H2 H3))) as Hok.
  assert (Hm : forall r, m_heartRate (snd (calculateMetrics calculateConfidence st)) = Some r ->
                         (60 <= r <= 150)%Z).
  { intros r Er. destruct Hok as [_ [_ Hall]].
    apply (smoothed_bounds 60 150 _ r Hall). exact Er. }
  destruct (calculateMetrics calculateConfidence st) as [st' m].
  destruct Hok as [A [B C]]. split; [exact A | split; [exact B | split; [exact C | exact Hm]]].
Qed.

(** X22: [getDisplaySignal] returns [min(60, length)] points with
    [x = 0, 1, ...] and every [y] in [[-1, 1]]; on a constant signal the
    zero range is replaced by 1 and every [y] is -1. *)
Theorem enhanced_getDisplaySignal_range (signal : list Q) :
  let pts := getDisplaySignal signal in
  length pts = Nat.min 60 (length signal)
  /\ map fst pts = seq 0 (length pts)
  /\ Forall (fun pt => -1 <= snd pt <= 1) pts
  /\ (forall c, Forall (fun pt => snd pt == -1) (getDisplaySignal (repeat c (length signal)))).
Proof.
  cbv zeta. unfold getDisplaySignal. cbv zeta.
  assert (Hl : forall l : list Q, length (skipn (length l - Nat.min 60 (length l)) l) = Nat.min 60 (length l))
    by (intros l; rewrite length_skipn; lia).
  assert (Hy : forall (data : list Q), data <> [] ->
     Forall (fun v => -1 <= v <= 1)
       (map (fun v => ((v - minQ data) / (if Qeq_bool (maxQ data - minQ data) 0 then 1
                                          else maxQ data - minQ data) - (1 # 2)) * 2) data)).
  { intros data Hne. apply Forall_map, Forall_forall. intros v Hv.
    pose proof (RealFacts.minQ_maxQ_bounds data v Hv) as Hb.
    destruct (Qeq_bool (maxQ data - minQ data) 0) eqn:E.
    - apply Qeq_bool_iff in E. assert (Hv0 : v - minQ data == 0) by lra.
      assert (Hd : (v - minQ data) / 1 == 0) by (rewrite Hv0; reflexivity). lra.
    - assert (Hne' : ~ maxQ data - minQ data == 0) by (intros H; apply Qeq_bool_iff in H; congruence).
      pose proof (unit_ratio (minQ data) (maxQ data) v Hb ltac:(lra)). lra. }
  split; [|split; [|split]].
  - specialize (Hl signal).
    destruct (skipn _ signal) as [|x r]; [exact Hl|].
    rewrite length_combine, length_seq, length_map. lia.
  - destruct (skipn _ signal) as [|x r]; [reflexivity|].
    rewrite map_fst_combine by (now rewrite length_seq, length_map).
    rewrite length_combine, length_seq, length_map, Nat.min_id. reflexivity.
  - destruct (skipn _ signal) as [|x r] eqn:E; [constructor|].
    apply Forall_forall. intros [k v] Hin. apply in_combine_r in Hin. cbn [snd].
    specialize (Hy (x :: r) ltac:(discriminate)). rewrite Forall_forall in Hy. exact (Hy v Hin).
  - intros c. rewrite repeat_length, skipn_repeat_eq.
    destruct (length signal - (length signal - Nat.min 60 (length signal)))%nat as [|k]; [constructor|].
    change (repeat c (S k)) with (c :: repeat c k).
    assert (Hmx : maxQ (c :: repeat c k) = c) by apply fold_Qmax_repeat.
    assert (Hmn : minQ (c :: repeat c k) = c) by apply fold_Qmin_repeat.
    rewrite Hmx, Hmn.
    assert (Qeq_bool (c - c) 0 = true) as -> by (apply Qeq_bool_iff; ring).
    apply Forall_forall. intros [i v] Hin. apply in_combine_r in Hin. cbn [snd].
    apply in_map_iff in Hin as [w [<- Hw]].
    assert (w = c) as -> by (destruct Hw as [<-|Hw]; [reflexivity | now apply repeat_spec in Hw]).
    field.
Qed.

(** X23: [EnhancedPPGProcessor.getSmoothedHeartRate] (the rounded mean of
    the last three rates) lies within any bounds that hold for every
    entry of the history. *)
Theorem enhanced_smoothed_within_bounds (lo hi : Z) (h : list Z) (r : Z) :
  Forall (fun x => (lo <= x <= hi)%Z) h ->
  Smoothing.enhanced_getSmoothedHeartRate h = Some r -> (lo <= r <= hi)%Z.
Proof. apply smoothed_bounds. Qed.

(** X24: [AdvancedPPGProcessor.getSmoothedHeartRate] (the median, the
    rounded mean of the two middle values for an even count) lies within
    any integer bounds that hold for every entry of the history; the
    entries themselves need not be integers. *)
Theorem advanced_median_within_bounds (lo hi : Z) (h : list Q) (r : Q) :
  Forall (fun x => (inject_Z lo <= x <= inject_Z hi)%Q) h ->
  Smoothing.advanced_getSmoothedHeartRate h = Some r -> (inject_Z lo <= r <= inject_Z hi)%Q.
Proof. apply median_bounds. Qed.

(** A run of [calculateMetrics] on a state whose histories hold 20 entries
    each: the estimate 100 BPM is recorded and both histories drop their
    oldest entry. *)
Lemma calculateMetrics_histories_bounded_witness :
  let st := EnhancedFixtures.state_full in
  length (heartRateHistory st) = length (confidenceHistory st)
  /\ (length (heartRateHistory st) <= 20)%nat
  /\ Forall (fun h => (60 <= h <= 150)%Z) (heartRateHistory st)
  /\ (let (st', m) := calculateMetrics (fun _ _ _ => 0) st in
      length (heartRateHistory st') = length (confidenceHistory st')
      /\ (length (heartRateHistory st') <= 20)%nat
      /\ Forall (fun h => (60 <= h <= 150)%Z) (heartRateHistory st')
      /\ (forall r, m_heartRate m = Some r -> (60 <= r <= 150)%Z))
  /\ length (heartRateHistory st) = 20%nat
  /\ heartRateHistory (fst (calculateMetrics (fun _ _ _ => 0) st))
     = tl (heartRateHistory st) ++ [100%Z]
  /\ confidenceHistory (fst (calculateMetrics (fun _ _ _ => 0) st))
     = tl (confidenceHistory st) ++ [0].
Proof.
  cbv zeta.
  assert (H1 : length (heartRateHistory EnhancedFixtures.state_full)
               = length (confidenceHistory EnhancedFixtures.state_full)) by reflexivity.
  assert (H2 : (length (heartRateHistory EnhancedFixtures.state_full) <= 20)%nat)
    by (apply Nat.leb_le; reflexivity).
  assert (H3 : Forall (fun h => (60 <= h <= 150)%Z) (heartRateHistory EnhancedFixtures.state_full))
    by (cbn; repeat constructor; lia).
  split; [exact H1|]. split; [exact H2|]. split; [exact H3|]. split.
  - exact (calculateMetrics_histories_bounded (fun _ _ _ => 0) EnhancedFixtures.state_full H1 H2 H3).
  - split; [reflexivity|].
    split; vm_compute; reflexivity.
Defined.

Lemma enhanced_smoothed_within_bounds_witness :
  Forall (fun x => (60 <= x <= 150)%Z) [100; 110; 120]%Z
  /\ Smoothing.enhanced_getSmoothedHeartRate [100; 110; 120]%Z = Some 110%Z
  /\ (60 <= 110 <= 150)%Z.
Proof.
  assert (H1 : Forall (fun x => (60 <= x <= 150)%Z) [100; 110; 120]%Z)
    by (repeat constructor; lia).
  assert (H2 : Smoothing.enhanced_getSmoothedHeartRate [100; 110; 120]%Z = Some 110%Z)
    by (vm_compute; reflexivity).
  split; [exact H1 | split; [exact H2 | exact (enhanced_smoothed_within_bounds 60 150 _ _ H1 H2)]].
Defined.

Lemma advanced_median_within_bounds_witness :
  Forall (fun x => (inject_Z 60 <= x <= inject_Z 150)%Q) [1400 # 12; 100; 110; 1800 # 13]%Q
  /\ Smoothing.advanced_getSmoothedHeartRate [1400 # 12; 100; 110; 1800 # 13]%Q = Some 113%Q
  /\ (inject_Z 60 <= 113 <= inject_Z 150)%Q.
Proof.
  assert (H1 : Forall (fun x => (inject_Z 60 <= x <= inject_Z 150)%Q) [1400 # 12; 100; 110; 1800 # 13]%Q)
    by (repeat constructor; vm_compute; discriminate).
  assert (H2 : Smoothing.advanced_getSmoothedHeartRate [1400 # 12; 100; 110; 1800 # 13]%Q = Some 113%Q)
    by (vm_compute; reflexivity).
  split; [exact H1 | split; [exact H2 | exact (advanced_median_within_bounds 60 150 _ _ H1 H2)]].
Defined.

End EnhancedFacts.
